(** * WhatsBot client: the bridge between the page and the host process

    A shallow embedding of [src/WhatsBot/src/Client.js].  The client drives a
    browser page: it republishes the page's store notifications as host
    events (the handlers registered in [initialize]) and it evaluates
    commands inside the page ([sendMessage] and its siblings).

    Conventions of the embedding:
    - a record that crosses from the page to the host is a plain Rocq record
      (the page hands over a serialised copy, so a handler sees a snapshot);
    - [this.emit(name, args)] appends an [emit] action to the trace of the
      handler, listeners are not modelled;
    - an awaited promise is a [Completion]: it fulfils with a value or it
      rejects with a thrown value;
    - the classes of [./structures], the tables of [./util/Constants] and the
      helpers of [./util/Injected] are not part of this file's source: they
      are the fields of the interfaces [Structures], [Constants] and
      [Injected] below, and every theorem holds for all their instances. *)

From Stdlib Require Import ZArith.
From stdpp Require Import base tactics option list strings gmap.

(** ** Values thrown and promise outcomes *)

Inductive Thrown : Type :=
| TypeError (description : string)
| ReferenceError (description : string)
| ThrownString (s : string)
| EvaluationError (description : string).

Inductive Completion (A : Type) : Type :=
| Normal (a : A)
| Throw (e : Thrown).
Arguments Normal {A} a.
Arguments Throw {A} e.

Definition Completion_map {A B : Type} (f : A → B) (c : Completion A) : Completion B :=
  match c with
  | Normal a => Normal (f a)
  | Throw e => Throw e
  end.

Global Instance Thrown_eq_dec : EqDecision Thrown.
Proof. solve_decision. Defined.

(** ** Records handed over by the page *)

Module Wid.
Record t : Type := mk { user : string; server : string; _serialized : string }.
End Wid.

Module MsgKey.
Record t : Type := mk { fromMe : bool; remote : string; id : string; _serialized : string }.
End MsgKey.

(** [isNewMsg] and [MsgKey.fromMe] are read by the source only through their
    truthiness; [subtype] is [None] when the property is undefined. *)
Module RawMsg.
Record t : Type := mk {
  id : MsgKey.t;
  isNewMsg : bool;
  type : string;
  subtype : option string;
  body : string;
  ack : Z
}.
End RawMsg.

(** A chat object of the page's store; [id] is the identity that
    [sendMessage] reassigns. *)
Module Chat.
Record t : Type := mk { id : Wid.t; name : string; archive : bool; unreadCount : Z }.
Definition set_id (v : Wid.t) (c : t) : t :=
  {| id := v; name := name c; archive := archive c; unreadCount := unreadCount c |}.
End Chat.

Module Contact.
Record t : Type := mk { id : Wid.t }.
End Contact.

Global Instance Wid_eq_dec : EqDecision Wid.t.
Proof. solve_decision. Defined.
Global Instance MsgKey_eq_dec : EqDecision MsgKey.t.
Proof. solve_decision. Defined.
Global Instance RawMsg_eq_dec : EqDecision RawMsg.t.
Proof. solve_decision. Defined.

(** The session tokens read from the page's local storage; a key that is
    missing there reads as undefined. *)
Record Session : Type := {
  WABrowserId : option string;
  WASecretBundle : option string;
  WAToken1 : option string;
  WAToken2 : option string
}.

(** ** Interfaces of the collaborators *)

(** [./structures]: the view objects built on the host side, and [JSON.parse]
    on the string the page returns for its local storage. *)
Class Structures : Type := {
  Message : Type;
  Message_new : RawMsg.t → Message;
  GroupNotification : Type;
  GroupNotification_new : RawMsg.t → GroupNotification;
  ConnData : Type;
  ClientInfo : Type;
  ClientInfo_new : ConnData → ClientInfo;
  MessageMedia : Type;
  Location : Type;
  JSON_parse : string → Completion (gmap string string)
}.

(** [./util/Constants]: the four values of [WAState] the source names. *)
Class Constants : Type := {
  WAState_CONNECTED : string;
  WAState_OPENING : string;
  WAState_PAIRING : string;
  WAState_TIMEOUT : string
}.

(** ** Events and actions of the host side *)

Section Bridge.
Context `{ST : Structures} `{CO : Constants}.

(** One constructor per key of [Events] the source uses, with the arguments
    handed to [emit]. *)
Inductive Event : Type :=
| AUTHENTICATED (session : Session)
| READY
| MESSAGE_CREATE (message : Message)
| MESSAGE_RECEIVED (message : Message)
| MESSAGE_REVOKED_EVERYONE (message : Message) (revoked_msg : option Message)
| MESSAGE_REVOKED_ME (message : Message)
| MESSAGE_ACK (message : Message) (ack : Z)
| GROUP_JOIN (notification : GroupNotification)
| GROUP_LEAVE (notification : GroupNotification)
| GROUP_UPDATE (notification : GroupNotification)
| STATE_CHANGED (state : string)
| DISCONNECTED (state : string).

(** What a handler or [initialize] does on the host side, in order.
    [call_destroy p] is the call [this.destroy()] of a handler: the promise
    [p] it returns is dropped, not awaited. *)
Inductive Action : Type :=
| emit (e : Event)
| console_log (v : Thrown)
| call_destroy (p : Completion ()).

(** ** The page, as the client sees it

    Each field is the outcome of one call the client makes on the puppeteer
    page.  [waitForSelector selector timeout] is
    [page.waitForSelector(selector, { timeout })]. *)
Record Page : Type := {
  evaluate_ExposeStore : Completion ();
  evaluate_localStorage : Completion string;
  waitForFunction : string → Completion ();
  evaluate_LoadUtils : Completion ();
  evaluate_Conn_serialize : Completion ConnData;
  exposeFunction : string → Completion ();
  evaluate_subscribe : Completion ();
  waitForSelector : string → Z → Completion ()
}.

(** The same page with another outcome for the first injection. *)
Definition with_ExposeStore (r : Completion ()) (page : Page) : Page :=
  {| evaluate_ExposeStore := r;
     evaluate_localStorage := evaluate_localStorage page;
     waitForFunction := waitForFunction page;
     evaluate_LoadUtils := evaluate_LoadUtils page;
     evaluate_Conn_serialize := evaluate_Conn_serialize page;
     exposeFunction := exposeFunction page;
     evaluate_subscribe := evaluate_subscribe page;
     waitForSelector := waitForSelector page |}.

Definition Browser : Type := nat.

(** The fields of [this] that the source assigns. *)
Record Client : Type := {
  info : option ClientInfo;
  pupBrowser : option Browser;
  pupPage : option Page
}.

(** The constructor: [pupBrowser] and [pupPage] are null, [info] is not yet
    assigned. *)
Definition Client_new : Client :=
  {| info := None; pupBrowser := None; pupPage := None |}.

(** ** destroy *)

Definition double_quote : string := String (Ascii.ascii_of_nat 34) EmptyString.

Definition KEEP_PHONE_CONNECTED_IMG_SELECTOR : string :=
  "[data-asset-intro-image=" +:+ double_quote +:+ "true" +:+ double_quote +:+ "]".

(** The names bound where the body of [destroy] is evaluated: its own
    constant, then the bindings of the module (the [require]d names, the
    class, and the five names of the module wrapper).  [destroy] has no
    parameter. *)
Definition destroy_scope : list string :=
  [ "KEEP_PHONE_CONNECTED_IMG_SELECTOR" ].

Definition module_scope : list string :=
  [ "EventEmitter"; "puppeteer"; "moduleRaid"; "Util"; "WhatsWebURL";
    "UserAgent"; "DefaultOptions"; "Events"; "WAState"; "ExposeStore";
    "LoadUtils"; "ChatFactory"; "ContactFactory"; "ClientInfo"; "Message";
    "MessageMedia"; "Location"; "GroupNotification"; "Client";
    "exports"; "require"; "module"; "__filename"; "__dirname" ].

(** [destroy] names [page], which no enclosing scope binds (the parameter
    [page] of [initialize] is local to [initialize]), so the name is read
    from the global object [global]: a reference error when the global
    object has no such property, the wait on that page otherwise.  The call
    [this.pupBrowser.close()] is commented out in the source. *)
Definition destroy (global : gmap string Page) : Completion () :=
  match global !! "page" with
  | None => Throw (ReferenceError "page is not defined")
  | Some page => waitForSelector page KEEP_PHONE_CONNECTED_IMG_SELECTOR 0
  end.

(** ** The handlers exposed to the page *)

Definition onAddMessageEvent (msg : RawMsg.t) : list Action :=
  if negb (RawMsg.isNewMsg msg) then []
  else if decide (RawMsg.type msg = "gp2") then
    let notification := GroupNotification_new msg in
    if bool_decide (RawMsg.subtype msg = Some "add")
       || bool_decide (RawMsg.subtype msg = Some "invite")
    then [emit (GROUP_JOIN notification)]
    else if bool_decide (RawMsg.subtype msg = Some "remove")
            || bool_decide (RawMsg.subtype msg = Some "leave")
    then [emit (GROUP_LEAVE notification)]
    else [emit (GROUP_UPDATE notification)]
  else
    let message := Message_new msg in
    emit (MESSAGE_CREATE message)
      :: (if MsgKey.fromMe (RawMsg.id msg) then []
          else [emit (MESSAGE_RECEIVED message)]).

(** The variable [last_message] that the two change handlers close over;
    [let last_message;] leaves it undefined. *)
Record Closure : Type := { last_message : option RawMsg.t }.

Definition Closure_new : Closure := {| last_message := None |}.

Definition onChangeMessageTypeEvent (cl : Closure) (msg : RawMsg.t) : list Action :=
  if decide (RawMsg.type msg = "revoked") then
    let message := Message_new msg in
    let revoked_msg :=
      match last_message cl with
      | Some last =>
          if decide (MsgKey.id (RawMsg.id msg) = MsgKey.id (RawMsg.id last))
          then Some (Message_new last)
          else None
      | None => None
      end in
    [emit (MESSAGE_REVOKED_EVERYONE message revoked_msg)]
  else [].

Definition onChangeMessageEvent (cl : Closure) (msg : RawMsg.t) : Closure :=
  if decide (RawMsg.type msg ≠ "revoked") then {| last_message := Some msg |}
  else cl.

Definition onRemoveMessageEvent (msg : RawMsg.t) : list Action :=
  if negb (RawMsg.isNewMsg msg) then []
  else
    let message := Message_new msg in
    [emit (MESSAGE_REVOKED_ME message)].

Definition onMessageAckEvent (msg : RawMsg.t) (ack : Z) : list Action :=
  let message := Message_new msg in
  [emit (MESSAGE_ACK message ack)].

Definition ACCEPTED_STATES : list string :=
  [WAState_CONNECTED; WAState_OPENING; WAState_PAIRING; WAState_TIMEOUT].

Definition onAppStateChangedEvent (global : gmap string Page) (state : string) : list Action :=
  emit (STATE_CHANGED state)
    :: (if negb (bool_decide (state ∈ ACCEPTED_STATES))
        then [emit (DISCONNECTED state); call_destroy (destroy global)]
        else []).

(** ** The subscriptions installed in the page

    The last evaluation of [initialize] subscribes to the store; each
    notification of the store calls one exposed handler, the ones for [add]
    and [remove] only when the record is marked new. *)
Inductive Notification : Type :=
| Msg_add (msg : RawMsg.t)
| Msg_change (msg : RawMsg.t)
| Msg_change_type (msg : RawMsg.t)
| Msg_change_ack (msg : RawMsg.t) (ack : Z)
| Msg_remove (msg : RawMsg.t)
| AppState_change_state (state : string).

Definition deliver (global : gmap string Page) (cl : Closure) (n : Notification)
  : Closure * list Action :=
  match n with
  | Msg_add msg =>
      (cl, if RawMsg.isNewMsg msg then onAddMessageEvent msg else [])
  | Msg_change msg => (onChangeMessageEvent cl msg, [])
  | Msg_change_type msg => (cl, onChangeMessageTypeEvent cl msg)
  | Msg_change_ack msg ack => (cl, onMessageAckEvent msg ack)
  | Msg_remove msg =>
      (cl, if RawMsg.isNewMsg msg then onRemoveMessageEvent msg else [])
  | AppState_change_state state => (cl, onAppStateChangedEvent global state)
  end.

(** A notification that leaves [last_message] as it is: any but a [change]
    of a record that is not revoked. *)
Definition keeps_cache (n : Notification) : Prop :=
  ∀ msg, n = Msg_change msg → RawMsg.type msg = "revoked".

(** Notifications are delivered one after the other, in their order. *)
Fixpoint run (global : gmap string Page) (cl : Closure) (ns : list Notification)
  : Closure * list Action :=
  match ns with
  | [] => (cl, [])
  | n :: ns' =>
      let '(cl1, out1) := deliver global cl n in
      let '(cl2, out2) := run global cl1 ns' in
      (cl2, out1 ++ out2)
  end.

(** ** initialize

    [initialize] runs in a monad that threads the fields of [this], collects
    the host-side actions and stops at the first rejected await. *)
Definition Async (A : Type) : Type := Client → list Action * Client * Completion A.

Definition Async_ret {A : Type} (a : A) : Async A :=
  λ c, ([], c, Normal a).

Definition Async_bind {A B : Type} (f : A → Async B) (m : Async A) : Async B :=
  λ c,
    match m c with
    | (out1, c1, Normal a) =>
        let '(out2, c2, r) := f a c1 in (out1 ++ out2, c2, r)
    | (out1, c1, Throw e) => (out1, c1, Throw e)
    end.

Definition actions {A : Type} (r : list Action * Client * Completion A) : list Action :=
  r.1.1.

Definition outcome {A : Type} (r : list Action * Client * Completion A) : Completion A :=
  r.2.

#[export] Instance Async_mret : MRet Async := @Async_ret.
#[export] Instance Async_mbind : MBind Async := @Async_bind.

Definition await {A : Type} (p : Completion A) : Async A :=
  λ c, ([], c, p).

Definition this_emit (e : Event) : Async () :=
  λ c, ([emit e], c, Normal ()).

Definition console_log_ (v : Thrown) : Async () :=
  λ c, ([console_log v], c, Normal ()).

(** [try { body } catch (e) { handler e }] *)
Definition try_catch {A : Type} (body : Async A) (handler : Thrown → Async A) : Async A :=
  λ c,
    match body c with
    | (out1, c1, Normal a) => (out1, c1, Normal a)
    | (out1, c1, Throw e) =>
        let '(out2, c2, r) := handler e c1 in (out1 ++ out2, c2, r)
    end.

Definition set_info (i : ClientInfo) : Async () :=
  λ c, ([], {| info := Some i; pupBrowser := pupBrowser c; pupPage := pupPage c |}, Normal ()).

Definition set_pupBrowser (b : Browser) : Async () :=
  λ c, ([], {| info := info c; pupBrowser := Some b; pupPage := pupPage c |}, Normal ()).

Definition set_pupPage (p : Page) : Async () :=
  λ c, ([], {| info := info c; pupBrowser := pupBrowser c; pupPage := Some p |}, Normal ()).

Definition initialize (page : Page) (browser : Browser) : Async () :=
  try_catch (await (evaluate_ExposeStore page)) (λ e, console_log_ e);;
  (* Get session tokens *)
  json ← await (evaluate_localStorage page);
  localStorage ← await (JSON_parse json);
  let session :=
    {| WABrowserId := localStorage !! "WABrowserId";
       WASecretBundle := localStorage !! "WASecretBundle";
       WAToken1 := localStorage !! "WAToken1";
       WAToken2 := localStorage !! "WAToken2" |} in
  this_emit (AUTHENTICATED session);;
  (* Check window.Store Injection *)
  await (waitForFunction page "window.Store != undefined");;
  (* Load util functions *)
  await (evaluate_LoadUtils page);;
  (* Expose client info *)
  conn ← await (evaluate_Conn_serialize page);
  set_info (ClientInfo_new conn);;
  (* Register events *)
  await (exposeFunction page "onAddMessageEvent");;
  await (exposeFunction page "onChangeMessageTypeEvent");;
  await (exposeFunction page "onChangeMessageEvent");;
  await (exposeFunction page "onRemoveMessageEvent");;
  await (exposeFunction page "onMessageAckEvent");;
  await (exposeFunction page "onAppStateChangedEvent");;
  await (evaluate_subscribe page);;
  set_pupBrowser browser;;
  set_pupPage page;;
  this_emit READY.

(** ** The chat store inside the page

    Chats are objects of the page: [Chat_objects] maps a reference to the
    object it denotes, [Chat_models] is the array [Store.Chat.models] of
    references.  Assigning a property of a chat changes the object for every
    holder of the reference. *)
Definition ref : Type := nat.

Record Store : Type := {
  Chat_objects : gmap ref Chat.t;
  Chat_models : list ref
}.

(** [Store.Chat.models[0]]: undefined on an empty array. *)
Definition Chat_models_0 (σ : Store) : option (ref * Chat.t) :=
  r ← Chat_models σ !! 0%nat;
  chat ← Chat_objects σ !! r;
  Some (r, chat).

(** [chat.id = v] *)
Definition assign_id (r : ref) (v : Wid.t) (σ : Store) : Store :=
  {| Chat_objects := alter (Chat.set_id v) r (Chat_objects σ);
     Chat_models := Chat_models σ |}.

(** The message object that the send helper resolves to; [serialize] is the
    result of its method [serialize()]. *)
Record MsgModel : Type := { serialize : RawMsg.t }.

Inductive Content : Type :=
| Text (s : string)
| Media (m : MessageMedia)
| Loc (l : Location).

Record InternalOptions : Type := {
  caption : option Content;
  quotedMessageId : option string;
  mentionedJidList : list string;
  attachment : option MessageMedia;
  location : option Location
}.

(** The argument [options] of [sendMessage]; a field is [None] when the
    property is undefined ([mentions]: when it is not an array, [media]:
    when it is not a [MessageMedia]). *)
Record SendOptions : Type := {
  opt_caption : option string;
  opt_quotedMessageId : option string;
  opt_mentions : option (list Contact.t);
  opt_media : option MessageMedia;
  opt_sendSeen : option bool
}.

(** [./util/Injected] and the store of the page: the lookup
    [Store.Chat.get], and the helpers [getNumberId] (a query: it resolves to
    a canonical identity or to a falsy value), [sendSeen] and [sendMessage]
    (they may change the store; [sendMessage] takes the reference of the
    chat, and the optional fourth argument). *)
Class Injected : Type := {
  Store_Chat_get : Store → string → option ref;
  WWebJS_getNumberId : Store → string → Completion (option Wid.t);
  WWebJS_sendSeen : Store → string → Store;
  WWebJS_sendMessage :
    Store → ref → Content → InternalOptions → option bool
    → Store * Completion (option MsgModel)
}.

Context `{INJ : Injected}.

Definition CHAT_LIST_EMPTY : string :=
  "Chat List empty! Need at least one open conversation with any of your contact".

(** [msg.serialize()] for the variable [msg] of the evaluated function,
    which is undefined until a send assigns it. *)
Definition msg_serialize (msg : option MsgModel) : Completion RawMsg.t :=
  match msg with
  | Some m => Normal (serialize m)
  | None => Throw (TypeError "Cannot read property 'serialize' of undefined")
  end.

(** The function that [sendMessage] evaluates in the page. *)
Definition sendMessage_evaluate (chatId : string) (message : Content)
    (options : InternalOptions) (sendSeen : bool) (σ : Store)
  : Store * Completion RawMsg.t :=
  match Store_Chat_get σ chatId with
  | None =>
      (* The chat is not available in the previously chatted list *)
      match WWebJS_getNumberId σ chatId with
      | Throw e => (σ, Throw e)
      | Normal (Some newChatId) =>
          match Chat_models_0 σ with
          | None => (σ, Throw (ThrownString CHAT_LIST_EMPTY))
          | Some (chat, c) =>
              let originalChatObjId := Chat.id c in
              let σ1 := assign_id chat newChatId σ in
              match WWebJS_sendMessage σ1 chat message options None with
              | (σ2, Throw e) => (σ2, Throw e)
              | (σ2, Normal msg) =>
                  let σ3 := assign_id chat originalChatObjId σ2 in
                  (σ3, msg_serialize msg)
              end
          end
      | Normal None => (σ, msg_serialize None)
      end
  | Some chat =>
      let σ1 := if sendSeen then WWebJS_sendSeen σ chatId else σ in
      match WWebJS_sendMessage σ1 chat message options (Some sendSeen) with
      | (σ2, Throw e) => (σ2, Throw e)
      | (σ2, Normal msg) => (σ2, msg_serialize msg)
      end
  end.

(** [sendMessage] on the host side; [σ] is the store of the page
    [this.pupPage].  A value thrown in the page rejects the evaluation. *)
Definition sendMessage (this : Client) (chatId : string) (content : Content)
    (options : SendOptions) (σ : Store) : Store * Completion Message :=
  let internalOptions :=
    {| caption := Text <$> opt_caption options;
       quotedMessageId := opt_quotedMessageId options;
       mentionedJidList :=
         match opt_mentions options with
         | Some mentions => (λ contact, Wid._serialized (Contact.id contact)) <$> mentions
         | None => []
         end;
       attachment := None;
       location := None |} in
  let sendSeen := default true (opt_sendSeen options) in
  let '(content, internalOptions) :=
    match content, opt_media options with
    | Media m, _ =>
        (Text "",
         {| caption := caption internalOptions;
            quotedMessageId := quotedMessageId internalOptions;
            mentionedJidList := mentionedJidList internalOptions;
            attachment := Some m;
            location := location internalOptions |})
    | _, Some m =>
        (content,
         {| caption := Some content;
            quotedMessageId := quotedMessageId internalOptions;
            mentionedJidList := mentionedJidList internalOptions;
            attachment := Some m;
            location := location internalOptions |})
    | Loc l, None =>
        (Text "",
         {| caption := caption internalOptions;
            quotedMessageId := quotedMessageId internalOptions;
            mentionedJidList := mentionedJidList internalOptions;
            attachment := attachment internalOptions;
            location := Some l |})
    | Text _, None => (content, internalOptions)
    end in
  match pupPage this with
  | None => (σ, Throw (TypeError "Cannot read property 'evaluate' of null"))
  | Some _ =>
      let '(σ', newMessage) := sendMessage_evaluate chatId content internalOptions sendSeen σ in
      (σ', Completion_map Message_new newMessage)
  end.

End Bridge.

(** ** Shapes of a trace *)

Section Traces.
Context `{ST : Structures}.

(** In [out], every occurrence of [b] comes right after an [a]. *)
Definition right_after (a b : Action) (out : list Action) : Prop :=
  ∀ i, out !! i = Some b → ∃ j, i = S j ∧ out !! j = Some a.

(** In [out], every occurrence of [a] is directly followed by [b]. *)
Definition right_before (a b : Action) (out : list Action) : Prop :=
  ∀ i, out !! i = Some a → out !! S i = Some b.


End Traces.

(** ** The arguments that sendMessage hands to the page

    The first statements of [sendMessage], up to the evaluation: the options
    record it builds and the content it passes on. *)
Section Arguments.
Context `{ST : Structures}.

Definition sendMessage_arguments (content : Content) (options : SendOptions)
  : Content * InternalOptions :=
  let internalOptions :=
    {| caption := Text <$> opt_caption options;
       quotedMessageId := opt_quotedMessageId options;
       mentionedJidList :=
         match opt_mentions options with
         | Some mentions => (λ contact, Wid._serialized (Contact.id contact)) <$> mentions
         | None => []
         end;
       attachment := None;
       location := None |} in
  match content, opt_media options with
  | Media m, _ =>
      (Text "",
       {| caption := caption internalOptions;
          quotedMessageId := quotedMessageId internalOptions;
          mentionedJidList := mentionedJidList internalOptions;
          attachment := Some m;
          location := location internalOptions |})
  | _, Some m =>
      (content,
       {| caption := Some content;
          quotedMessageId := quotedMessageId internalOptions;
          mentionedJidList := mentionedJidList internalOptions;
          attachment := Some m;
          location := location internalOptions |})
  | Loc l, None =>
      (Text "",
       {| caption := caption internalOptions;
          quotedMessageId := quotedMessageId internalOptions;
          mentionedJidList := mentionedJidList internalOptions;
          attachment := attachment internalOptions;
          location := Some l |})
  | Text _, None => (content, internalOptions)
  end.

End Arguments.

(** ** The other commands *)

(** [./factories]: the records the page returns for chats and contacts and
    the view objects built from them. *)
Class Factories : Type := {
  RawChat : Type;
  ChatView : Type;
  ChatFactory_create : RawChat → ChatView;
  RawContact : Type;
  ContactView : Type;
  ContactFactory_create : RawContact → ContactView
}.

Section Commands.
Context `{ST : Structures} `{INJ : !Injected} `{FA : Factories}.

(** What the commands other than [sendMessage] reach in the page: the value
    that the helper [sendSeen] resolves to (its effect on the store is
    [WWebJS_sendSeen]), the four read helpers, and four members of the store
    of the page.  [Store_Cmd_archiveChat] takes the result of
    [Store.Chat.get], undefined included. *)
Class PageCommands : Type := {
  WWebJS_sendSeen_value : Store → string → Completion bool;
  WWebJS_getChats : Store → Completion (list RawChat);
  WWebJS_getChat : Store → string → Completion RawChat;
  WWebJS_getContacts : Store → Completion (list RawContact);
  WWebJS_getContact : Store → string → Completion RawContact;
  Store_Invite_sendJoinGroupViaInvite : Store → string → Store * Completion (option Wid.t);
  Store_Wap_sendSetStatus : Store → string → Store * Completion ();
  Store_AppState_state : Store → string;
  Store_AppState_forceRunNow : Store → Store * Completion ();
  Store_Cmd_archiveChat : Store → option ref → bool → Store * Completion ()
}.

Context `{PC : !PageCommands}.

(** The type error of [this.pupPage.evaluate] on the null [pupPage]. *)
Definition NO_PAGE : Thrown := TypeError "Cannot read property 'evaluate' of null".

(** [this.pupPage.evaluate(f)]: [pupPage] is null until [initialize] has
    assigned it. *)
Definition pupPage_evaluate {A : Type} (this : Client)
    (f : Store → Store * Completion A) (σ : Store) : Store * Completion A :=
  match pupPage this with
  | None => (σ, Throw NO_PAGE)
  | Some _ => f σ
  end.

Definition sendSeen (this : Client) (chatId : string) (σ : Store)
  : Store * Completion bool :=
  pupPage_evaluate this
    (λ σ, (WWebJS_sendSeen σ chatId, WWebJS_sendSeen_value σ chatId)) σ.








(** [chat.archive] after the command, for the value [chat] of
    [Store.Chat.get]: a type error on undefined (and on a reference that the
    store of the model no longer holds). *)
Definition chat_archive (chat : option ref) (σ : Store) : Completion bool :=
  match chat ≫= λ r, Chat_objects σ !! r with
  | Some c => Normal (Chat.archive c)
  | None => Throw (TypeError "Cannot read property 'archive' of undefined")
  end.

Definition archiveChat (this : Client) (chatId : string) (σ : Store)
  : Store * Completion bool :=
  pupPage_evaluate this
    (λ σ,
       let chat := Store_Chat_get σ chatId in
       match Store_Cmd_archiveChat σ chat true with
       | (σ1, Normal _) => (σ1, chat_archive chat σ1)
       | (σ1, Throw e) => (σ1, Throw e)
       end) σ.

Definition unarchiveChat (this : Client) (chatId : string) (σ : Store)
  : Store * Completion bool :=
  pupPage_evaluate this
    (λ σ,
       let chat := Store_Chat_get σ chatId in
       match Store_Cmd_archiveChat σ chat false with
       | (σ1, Normal _) => (σ1, chat_archive chat σ1)
       | (σ1, Throw e) => (σ1, Throw e)
       end) σ.


(** The store command that the two archive commands rely on, when it does
    what its name says: it sets the flag of the chat object and resolves. *)
Definition set_archive (flag : bool) (c : Chat.t) : Chat.t :=
  {| Chat.id := Chat.id c; Chat.name := Chat.name c; Chat.archive := flag;
     Chat.unreadCount := Chat.unreadCount c |}.

Definition archived (flag : bool) (r : ref) (σ : Store) : Store :=
  {| Chat_objects := alter (set_archive flag) r (Chat_objects σ);
     Chat_models := Chat_models σ |}.

Definition archives_as_asked : Prop :=
  ∀ σ r flag,
    Store_Cmd_archiveChat σ (Some r) flag = (archived flag r σ, Normal ()).

End Commands.

(** ** Concrete collaborators and inputs

    One instance of each interface and a few records, on which the
    statements below are evaluated. *)
Module Demo.

Definition structures : Structures :=
  {| Message := RawMsg.t;
     Message_new := λ msg, msg;
     GroupNotification := RawMsg.t;
     GroupNotification_new := λ msg, msg;
     ConnData := string;
     ClientInfo := string;
     ClientInfo_new := λ conn, conn;
     MessageMedia := string;
     Location := string;
     JSON_parse := λ json,
       if decide (json = "{}") then Normal ∅
       else Throw (EvaluationError "Unexpected token") |}.

Definition constants : Constants :=
  {| WAState_CONNECTED := "CONNECTED";
     WAState_OPENING := "OPENING";
     WAState_PAIRING := "PAIRING";
     WAState_TIMEOUT := "TIMEOUT" |}.

Definition key (fromMe : bool) (id : string) : MsgKey.t :=
  MsgKey.mk fromMe "123@c.us" id ("123@c.us_" +:+ id).

Definition chat_msg : RawMsg.t :=
  RawMsg.mk (key false "3EB0") true "chat" None "hello" 1.

Definition own_msg : RawMsg.t :=
  RawMsg.mk (key true "3EB1") true "chat" None "on my way" 0.

Definition old_msg : RawMsg.t :=
  RawMsg.mk (key false "3EB2") false "chat" None "yesterday" 3.

Definition group_msg : RawMsg.t :=
  RawMsg.mk (key false "3EB3") true "gp2" (Some "add") "" 0.

Definition group_leave_msg : RawMsg.t :=
  RawMsg.mk (key false "3EB4") true "gp2" (Some "leave") "" 0.

Definition group_subject_msg : RawMsg.t :=
  RawMsg.mk (key false "3EB5") true "gp2" (Some "subject") "" 0.

Definition revoked_msg : RawMsg.t :=
  RawMsg.mk (key false "3EB0") false "revoked" None "" 1.

Definition other_msg : RawMsg.t :=
  RawMsg.mk (key false "3EB9") true "chat" None "other" 1.

(** A page on which every call succeeds, and pages on which one call
    rejects. *)
Definition page_ok : @Page structures :=
  {| evaluate_ExposeStore := Normal ();
     evaluate_localStorage := Normal "{}";
     waitForFunction := λ _, Normal ();
     evaluate_LoadUtils := Normal ();
     evaluate_Conn_serialize := Normal ("me" : @ConnData structures);
     exposeFunction := λ _, Normal ();
     evaluate_subscribe := Normal ();
     waitForSelector := λ _ _, Normal () |}.

Definition boom : Thrown := EvaluationError "Evaluation failed".

Definition page_no_injection : @Page structures :=
  with_ExposeStore (Throw boom) page_ok.

Definition page_no_storage : @Page structures :=
  {| evaluate_ExposeStore := Normal ();
     evaluate_localStorage := Throw boom;
     waitForFunction := λ _, Normal ();
     evaluate_LoadUtils := Normal ();
     evaluate_Conn_serialize := Normal ("me" : @ConnData structures);
     exposeFunction := λ _, Normal ();
     evaluate_subscribe := Normal ();
     waitForSelector := λ _ _, Normal () |}.

Definition page_no_store : @Page structures :=
  {| evaluate_ExposeStore := Normal ();
     evaluate_localStorage := Normal "{}";
     waitForFunction := λ _, Throw boom;
     evaluate_LoadUtils := Normal ();
     evaluate_Conn_serialize := Normal ("me" : @ConnData structures);
     exposeFunction := λ _, Normal ();
     evaluate_subscribe := Normal ();
     waitForSelector := λ _ _, Normal () |}.

Definition page_no_utils : @Page structures :=
  {| evaluate_ExposeStore := Normal ();
     evaluate_localStorage := Normal "{}";
     waitForFunction := λ _, Normal ();
     evaluate_LoadUtils := Throw boom;
     evaluate_Conn_serialize := Normal ("me" : @ConnData structures);
     exposeFunction := λ _, Normal ();
     evaluate_subscribe := Normal ();
     waitForSelector := λ _ _, Normal () |}.

Definition page_no_conn : @Page structures :=
  {| evaluate_ExposeStore := Normal ();
     evaluate_localStorage := Normal "{}";
     waitForFunction := λ _, Normal ();
     evaluate_LoadUtils := Normal ();
     evaluate_Conn_serialize := Throw boom;
     exposeFunction := λ _, Normal ();
     evaluate_subscribe := Normal ();
     waitForSelector := λ _ _, Normal () |}.

(** Stores: an empty chat list, and a list of one chat. *)
Definition wid (user : string) : Wid.t :=
  Wid.mk user "c.us" (user +:+ "@c.us").

Definition alice : Chat.t := Chat.mk (wid "111") "Alice" false 2.


Definition store_alice : Store :=
  {| Chat_objects := {[ 7%nat := alice ]}; Chat_models := [7%nat] |}.

Definition sent : MsgModel :=
  {| serialize := RawMsg.mk (key true "3EB7") true "chat" None "hi" 0 |}.

(** Helpers of the page: the lookup goes through the chat list by serialised
    identity; [resolvable] tells whether the number "123" resolves; the send
    helper leaves the store as it is. *)
Definition injected (resolvable : bool) : @Injected structures :=
  {| Store_Chat_get := λ σ chatId,
       list_find
         (λ r, (Wid._serialized ∘ Chat.id) <$> Chat_objects σ !! r = Some chatId)
         (Chat_models σ) ≫= λ ir, Some ir.2;
     WWebJS_getNumberId := λ _ chatId,
       Normal (if resolvable && bool_decide (chatId = "123") then Some (wid "123") else None);
     WWebJS_sendSeen := λ σ _, σ;
     WWebJS_sendMessage := λ σ _ _ _ _, (σ, Normal (Some sent)) |}.

(** A global object without a property [page]. *)
Definition no_global : gmap string (@Page structures) := ∅.

(** A client after a successful [initialize] on [page_ok]. *)
Definition client_ready : @Client structures :=
  {| info := Some ("me" : @ClientInfo structures);
     pupBrowser := Some 1%nat;
     pupPage := Some page_ok |}.

Definition no_options : @SendOptions structures :=
  {| opt_caption := None; opt_quotedMessageId := None; opt_mentions := None;
     opt_media := None; opt_sendSeen := None |}.

Definition no_internal_options : @InternalOptions structures :=
  {| caption := None; quotedMessageId := None; mentionedJidList := [];
     attachment := None; location := None |}.

End Demo.

(** Collaborators for the other commands: the read helpers list the chats
    by name, the archive command sets the flag. *)
Module DemoCommands.

Definition factories : Factories :=
  {| RawChat := string; ChatView := string; ChatFactory_create := λ chat, chat;
     RawContact := string; ContactView := string;
     ContactFactory_create := λ contact, contact |}.

Definition names (σ : Store) : list string :=
  omap (λ r, Chat.name <$> Chat_objects σ !! r) (Chat_models σ).

Definition commands : PageCommands (FA := factories) :=
  {| WWebJS_sendSeen_value := λ _ _, Normal true;
     WWebJS_getChats := λ σ, Normal (names σ : list (@RawChat factories));
     WWebJS_getChat := λ _ chatId, Normal (chatId : @RawChat factories);
     WWebJS_getContacts := λ σ, Normal (names σ : list (@RawContact factories));
     WWebJS_getContact := λ _ contactId, Normal (contactId : @RawContact factories);
     Store_Invite_sendJoinGroupViaInvite := λ σ _, (σ, Normal None);
     Store_Wap_sendSetStatus := λ σ _, (σ, Normal ());
     Store_AppState_state := λ _, "CONNECTED";
     Store_AppState_forceRunNow := λ σ, (σ, Normal ());
     Store_Cmd_archiveChat := λ σ chat flag,
       ({| Chat_objects :=
             match chat with
             | Some r => alter (set_archive flag) r (Chat_objects σ)
             | None => Chat_objects σ
             end;
           Chat_models := Chat_models σ |},
        Normal ()) |}.

Definition bob : Chat.t := Chat.mk (Demo.wid "222") "Bob" false 0.

(** Alice first, then Bob. *)
Definition store_two : Store :=
  {| Chat_objects := {[ 7%nat := Demo.alice; 9%nat := bob ]};
     Chat_models := [7%nat; 9%nat] |}.

Definition location_options : @SendOptions Demo.structures :=
  {| opt_caption := Some "look"; opt_quotedMessageId := None;
     opt_mentions := Some [Contact.mk (Demo.wid "111"); Contact.mk (Demo.wid "222")];
     opt_media := Some ("photo.jpg" : @MessageMedia Demo.structures);
     opt_sendSeen := None |}.

(** Helpers whose send throws and leaves the store alone. *)
Definition injected_failing : @Injected Demo.structures :=
  {| Store_Chat_get := Store_Chat_get (Injected := Demo.injected true);
     WWebJS_getNumberId := WWebJS_getNumberId (Injected := Demo.injected true);
     WWebJS_sendSeen := λ σ _, σ;
     WWebJS_sendMessage := λ σ _ _ _ _, (σ, Throw Demo.boom) |}.

End DemoCommands.

(** * Properties of the event bridge *)

Section BridgeFacts.
Context `{ST : Structures} `{CO : Constants}.
Implicit Types (global : gmap string Page) (cl : Closure).
Implicit Types (msg : RawMsg.t) (ns : list Notification).

(** ** Running a sequence of notifications *)

Lemma run_app global cl ns1 ns2 :
  run global cl (ns1 ++ ns2) =
    ((run global (run global cl ns1).1 ns2).1,
     (run global cl ns1).2 ++ (run global (run global cl ns1).1 ns2).2).
Proof.
  revert cl. induction ns1 as [|n ns1 IH]; intros cl; simpl.
  - by destruct (run global cl ns2).
  - destruct (deliver global cl n) as [cl1 out1]. rewrite IH.
    destruct (run global cl1 ns1) as [cl2 out2]; simpl.
    by rewrite app_assoc.
Qed.

Lemma run_singleton global cl n :
  run global cl [n] = ((deliver global cl n).1, (deliver global cl n).2).
Proof. simpl. destruct (deliver global cl n). by rewrite app_nil_r. Qed.

Lemma deliver_keeps_cache global cl n :
  keeps_cache n → (deliver global cl n).1 = cl.
Proof.
  intros Hn. destruct n as [m|m|m|m a|m|s]; simpl; try done.
  unfold onChangeMessageEvent. case_decide as Hty; [|done].
  destruct Hty. by apply Hn.
Qed.

Lemma run_keeps_cache global cl ns :
  Forall keeps_cache ns → (run global cl ns).1 = cl.
Proof.
  intros Hns. revert cl. induction Hns as [|n ns Hn _ IH]; intros cl; simpl; [done|].
  pose proof (deliver_keeps_cache global cl n Hn) as Hd.
  destruct (deliver global cl n) as [cl1 out1]. simpl in Hd. subst cl1.
  specialize (IH cl). destruct (run global cl ns) as [cl2 out2]. done.
Qed.

(** Whatever the closure holds was put there by a [change] of a record that
    was not revoked. *)
Lemma last_message_origin global cl ns msg :
  last_message (run global cl ns).1 = Some msg →
  last_message cl = Some msg
  ∨ (Msg_change msg ∈ ns ∧ RawMsg.type msg ≠ "revoked").
Proof.
  revert cl. induction ns as [|n ns IH]; intros cl; simpl; [by left|].
  destruct (deliver global cl n) as [cl1 out1] eqn:Hd.
  specialize (IH cl1). destruct (run global cl1 ns) as [cl2 out2]. simpl in *.
  intros Hlast. destruct (IH Hlast) as [Hcl1|[Hin Hty]].
  - destruct n as [m|m|m|m a|m|s]; simpl in Hd; simplify_eq; try by left.
    unfold onChangeMessageEvent in Hcl1. case_decide as Hty; [|by left].
    simpl in Hcl1. simplify_eq. right. split; [left|done].
  - right. split; [by right|done].
Qed.

Lemma revoke_with_cached cl last msg :
  RawMsg.type msg = "revoked" →
  last_message cl = Some last →
  MsgKey.id (RawMsg.id msg) = MsgKey.id (RawMsg.id last) →
  onChangeMessageTypeEvent cl msg =
    [emit (MESSAGE_REVOKED_EVERYONE (Message_new msg) (Some (Message_new last)))].
Proof.
  intros Hty Hlast Hid. unfold onChangeMessageTypeEvent.
  rewrite decide_True by done. rewrite Hlast. by rewrite decide_True.
Qed.

Lemma revoke_without_cached cl msg :
  RawMsg.type msg = "revoked" →
  (∀ last, last_message cl = Some last →
     MsgKey.id (RawMsg.id last) ≠ MsgKey.id (RawMsg.id msg)) →
  onChangeMessageTypeEvent cl msg =
    [emit (MESSAGE_REVOKED_EVERYONE (Message_new msg) None)].
Proof.
  intros Hty Hnone. unfold onChangeMessageTypeEvent.
  rewrite decide_True by done.
  destruct (last_message cl) as [last|] eqn:Hlast; [|done].
  rewrite decide_False; [done|]. intros Heq. by apply (Hnone last).
Qed.

(** C1: revocation reconstruction.  A change of a record that is not
    revoked, then (with no caching change in between) the revocation of a
    record with the same identifier: the [message_revoke_everyone] event
    carries the message built from the record snapshotted at the first
    change.  A revocation for an identifier that no cached record carries,
    in particular after a history without a change of a non-revoked record
    with that identifier, carries no previous state. *)
Theorem revocation_reconstruction global :
  (∀ cl first revoked ns,
     RawMsg.type first ≠ "revoked" →
     RawMsg.type revoked = "revoked" →
     MsgKey.id (RawMsg.id revoked) = MsgKey.id (RawMsg.id first) →
     Forall keeps_cache ns →
     (run global cl (Msg_change first :: ns ++ [Msg_change_type revoked])).2 =
       (run global cl (Msg_change first :: ns)).2
       ++ [emit (MESSAGE_REVOKED_EVERYONE (Message_new revoked)
                   (Some (Message_new first)))])
  ∧ (∀ cl revoked,
       RawMsg.type revoked = "revoked" →
       (∀ last, last_message cl = Some last →
          MsgKey.id (RawMsg.id last) ≠ MsgKey.id (RawMsg.id revoked)) →
       (deliver global cl (Msg_change_type revoked)).2 =
         [emit (MESSAGE_REVOKED_EVERYONE (Message_new revoked) None)])
  ∧ (∀ revoked ns,
       RawMsg.type revoked = "revoked" →
       (∀ msg, Msg_change msg ∈ ns → RawMsg.type msg ≠ "revoked" →
          MsgKey.id (RawMsg.id msg) ≠ MsgKey.id (RawMsg.id revoked)) →
       (run global Closure_new (ns ++ [Msg_change_type revoked])).2 =
         (run global Closure_new ns).2
         ++ [emit (MESSAGE_REVOKED_EVERYONE (Message_new revoked) None)]).
Proof.
  split_and!.
  - intros cl first revoked ns Hfirst Hrev Hid Hns.
    assert ((run global cl (Msg_change first :: ns)).1
            = {| last_message := Some first |}) as Hcache.
    { simpl. unfold onChangeMessageEvent. rewrite decide_True by done.
      pose proof (run_keeps_cache global {| last_message := Some first |} ns Hns) as Hk.
      destruct (run global _ ns). done. }
    rewrite (app_comm_cons ns), run_app, run_singleton, Hcache.
    cbn [fst snd deliver]. f_equal.
    by apply revoke_with_cached.
  - intros cl revoked Hrev Hnone. simpl. by apply revoke_without_cached.
  - intros revoked ns Hrev Hnone.
    rewrite run_app, run_singleton. cbn [fst snd deliver]. f_equal.
    apply revoke_without_cached; [done|].
    intros last Hlast.
    destruct (last_message_origin _ _ _ _ Hlast) as [Hnew|[Hin Hty]]; [done|].
    by apply Hnone.
Qed.

(** ** Added and removed messages *)

(** C8: for a record whose [isNewMsg] is false, neither the handler of
    [add] nor the handler of [remove] emits anything, and neither does the
    subscription in the page: no [message_create], no [message] and no
    [message_revoke_me]. *)
Theorem not_new_emits_nothing global cl msg :
  RawMsg.isNewMsg msg = false →
  onAddMessageEvent msg = []
  ∧ onRemoveMessageEvent msg = []
  ∧ deliver global cl (Msg_add msg) = (cl, [])
  ∧ deliver global cl (Msg_remove msg) = (cl, []).
Proof.
  intros Hnew. unfold onAddMessageEvent, onRemoveMessageEvent. simpl.
  by rewrite Hnew.
Qed.

(** C4, amended: for a record marked new whose type is not [gp2],
    [message_create] is emitted first, and [message] (received) follows
    exactly when the record is not from the local user. *)
Theorem new_message_create_then_received global cl msg :
  RawMsg.isNewMsg msg = true →
  RawMsg.type msg ≠ "gp2" →
  (deliver global cl (Msg_add msg)).2 = onAddMessageEvent msg
  ∧ head (onAddMessageEvent msg) = Some (emit (MESSAGE_CREATE (Message_new msg)))
  ∧ (MsgKey.fromMe (RawMsg.id msg) = true →
       onAddMessageEvent msg = [emit (MESSAGE_CREATE (Message_new msg))])
  ∧ (MsgKey.fromMe (RawMsg.id msg) = false →
       onAddMessageEvent msg =
         [emit (MESSAGE_CREATE (Message_new msg));
          emit (MESSAGE_RECEIVED (Message_new msg))]).
Proof.
  intros Hnew Hty. simpl. unfold onAddMessageEvent.
  rewrite Hnew, decide_False by done. simpl.
  split_and!; [done|done|by intros ->|by intros ->].
Qed.

(** C10: for a record marked new whose type is [gp2], exactly one group
    event is emitted, chosen by the subtype: [group_join] for [add] and
    [invite], [group_leave] for [remove] and [leave], [group_update]
    otherwise; neither [message_create] nor [message] is emitted. *)
Theorem group_notification_event global cl msg :
  RawMsg.isNewMsg msg = true →
  RawMsg.type msg = "gp2" →
  (deliver global cl (Msg_add msg)).2 = onAddMessageEvent msg
  ∧ length (onAddMessageEvent msg) = 1%nat
  ∧ (RawMsg.subtype msg ∈ [Some "add"; Some "invite"] →
       onAddMessageEvent msg = [emit (GROUP_JOIN (GroupNotification_new msg))])
  ∧ (RawMsg.subtype msg ∈ [Some "remove"; Some "leave"] →
       onAddMessageEvent msg = [emit (GROUP_LEAVE (GroupNotification_new msg))])
  ∧ (RawMsg.subtype msg ∉ [Some "add"; Some "invite"; Some "remove"; Some "leave"] →
       onAddMessageEvent msg = [emit (GROUP_UPDATE (GroupNotification_new msg))])
  ∧ (∀ message, emit (MESSAGE_CREATE message) ∉ onAddMessageEvent msg)
  ∧ (∀ message, emit (MESSAGE_RECEIVED message) ∉ onAddMessageEvent msg).
Proof.
  intros Hnew Hty. simpl. unfold onAddMessageEvent.
  rewrite Hnew, decide_True by done. simpl.
  split_and!; [done|..].
  - by repeat case_match.
  - intros Hsub. set_unfold in Hsub.
    destruct Hsub as [->|[->|[]]]; by vm_compute.
  - intros Hsub. set_unfold in Hsub.
    destruct Hsub as [->|[->|[]]]; by vm_compute.
  - intros Hsub. set_unfold in Hsub.
    rewrite !bool_decide_eq_false_2 by naive_solver. done.
  - intros message. repeat case_match; rewrite list_elem_of_singleton; discriminate.
  - intros message. repeat case_match; rewrite list_elem_of_singleton; discriminate.
Qed.

(** ** Acknowledgements *)

(** C9: the same [change:ack] notification delivered twice gives two
    [message_ack] events with the same payload; more generally [k] deliveries
    give [k] such events, none is filtered or merged. *)
Theorem ack_not_deduplicated global cl msg (ack : Z) :
  run global cl [Msg_change_ack msg ack; Msg_change_ack msg ack] =
    (cl, [emit (MESSAGE_ACK (Message_new msg) ack);
          emit (MESSAGE_ACK (Message_new msg) ack)])
  ∧ ∀ k : nat,
      run global cl (replicate k (Msg_change_ack msg ack)) =
        (cl, replicate k (emit (MESSAGE_ACK (Message_new msg) ack))).
Proof.
  split; [done|].
  intros k. induction k as [|k IH]; [done|].
  simpl. by rewrite IH.
Qed.

(** ** Connection state *)

(** C3: a state among the accepted ones emits [change_state] only; any
    other state emits [change_state], then [disconnected], and then calls
    [destroy]. *)
Theorem state_change_events global cl (state : string) :
  (state ∈ ACCEPTED_STATES →
     deliver global cl (AppState_change_state state) =
       (cl, [emit (STATE_CHANGED state)]))
  ∧ (state ∉ ACCEPTED_STATES →
       deliver global cl (AppState_change_state state) =
         (cl, [emit (STATE_CHANGED state);
               emit (DISCONNECTED state);
               call_destroy (destroy global)])).
Proof.
  simpl. unfold onAppStateChangedEvent. split; intros Hstate.
  - by rewrite bool_decide_eq_true_2.
  - by rewrite bool_decide_eq_false_2.
Qed.

(** ** destroy *)

Lemma page_free_in_destroy : "page" ∉ destroy_scope ++ module_scope.
Proof. apply (bool_decide_unpack _). by vm_compute. Qed.

(** With a global [page], [destroy] is the wait for the marker on that
    page, without a timeout. *)
Lemma destroy_global_page global (page : Page) :
  global !! "page" = Some page →
  destroy global = waitForSelector page KEEP_PHONE_CONNECTED_IMG_SELECTOR 0.
Proof. intros Hpage. unfold destroy. by rewrite Hpage. Qed.

(** C5, as the code runs: [destroy] reads the name [page], which it does
    not bind; with no such global the returned promise rejects with a
    reference error and no wait is started, whatever page the client was
    initialised with. *)
Theorem destroy_without_global_page :
  destroy ∅ = Throw (ReferenceError "page is not defined").
Proof. done. Qed.

End BridgeFacts.

(** * Properties of initialize *)

Section InitializeFacts.
Context `{ST : Structures} `{CO : Constants}.
Implicit Types (page : Page) (browser : Browser) (this : Client).

Ltac run_initialize :=
  unfold initialize, actions, outcome, mbind, Async_mbind, Async_bind,
    try_catch, await, this_emit, console_log_, set_info, set_pupBrowser,
    set_pupPage; simpl.

Ltac no_ready :=
  let Hin := fresh "Hin" in
  intros Hin;
  repeat (apply elem_of_cons in Hin; destruct Hin as [Hin|Hin]; [discriminate Hin|]);
  by apply elem_of_nil in Hin.

(** A rejected initialisation has not emitted [ready]. *)
Lemma initialize_throw_no_ready page browser this e :
  outcome (initialize page browser this) = Throw e →
  emit READY ∉ actions (initialize page browser this).
Proof.
  run_initialize.
  destruct (evaluate_ExposeStore page);
    (destruct (evaluate_localStorage page) as [json|]; simpl; [|intros _; no_ready]);
    (destruct (JSON_parse json); simpl; [|intros _; no_ready]);
    (destruct (waitForFunction page _); simpl; [|intros _; no_ready]);
    (destruct (evaluate_LoadUtils page); simpl; [|intros _; no_ready]);
    (destruct (evaluate_Conn_serialize page); simpl; [|intros _; no_ready]);
    (destruct (exposeFunction page "onAddMessageEvent"); simpl; [|intros _; no_ready]);
    (destruct (exposeFunction page "onChangeMessageTypeEvent"); simpl; [|intros _; no_ready]);
    (destruct (exposeFunction page "onChangeMessageEvent"); simpl; [|intros _; no_ready]);
    (destruct (exposeFunction page "onRemoveMessageEvent"); simpl; [|intros _; no_ready]);
    (destruct (exposeFunction page "onMessageAckEvent"); simpl; [|intros _; no_ready]);
    (destruct (exposeFunction page "onAppStateChangedEvent"); simpl; [|intros _; no_ready]);
    (destruct (evaluate_subscribe page); simpl; [|intros _; no_ready]);
    discriminate.
Qed.

(** C6: a failure of the first injection is caught and logged, and
    [initialize] goes on as on the page where that injection succeeds; a
    failure of the local-storage read, of the wait for the store, of the
    helper injection or of the descriptor fetch rejects [initialize] with
    the value thrown, and [ready] is not emitted. *)
Theorem initialize_failure_handling page browser this :
  (∀ e, evaluate_ExposeStore page = Throw e →
     actions (initialize page browser this) =
       console_log e
         :: actions (initialize (with_ExposeStore (Normal ()) page) browser this)
     ∧ outcome (initialize page browser this) =
         outcome (initialize (with_ExposeStore (Normal ()) page) browser this))
  ∧ (∀ e, evaluate_localStorage page = Throw e →
       outcome (initialize page browser this) = Throw e
       ∧ emit READY ∉ actions (initialize page browser this))
  ∧ (∀ e json localStorage,
       evaluate_localStorage page = Normal json →
       JSON_parse json = Normal localStorage →
       waitForFunction page "window.Store != undefined" = Throw e →
       outcome (initialize page browser this) = Throw e
       ∧ emit READY ∉ actions (initialize page browser this))
  ∧ (∀ e json localStorage,
       evaluate_localStorage page = Normal json →
       JSON_parse json = Normal localStorage →
       waitForFunction page "window.Store != undefined" = Normal () →
       evaluate_LoadUtils page = Throw e →
       outcome (initialize page browser this) = Throw e
       ∧ emit READY ∉ actions (initialize page browser this))
  ∧ (∀ e json localStorage,
       evaluate_localStorage page = Normal json →
       JSON_parse json = Normal localStorage →
       waitForFunction page "window.Store != undefined" = Normal () →
       evaluate_LoadUtils page = Normal () →
       evaluate_Conn_serialize page = Throw e →
       outcome (initialize page browser this) = Throw e
       ∧ emit READY ∉ actions (initialize page browser this))
  ∧ (∀ e json,
       evaluate_localStorage page = Normal json →
       JSON_parse json = Throw e →
       outcome (initialize page browser this) = Throw e
       ∧ emit READY ∉ actions (initialize page browser this)).
Proof.
  split_and!.
  - intros e He. run_initialize. rewrite He. simpl.
    by repeat (case_match; simpl in *; simplify_eq).
  - intros e He.
    assert (outcome (initialize page browser this) = Throw e) as Hout.
    { run_initialize. rewrite He. by destruct (evaluate_ExposeStore page). }
    split; [done|]. by eapply initialize_throw_no_ready.
  - intros e json localStorage Hjson Hparse He.
    assert (outcome (initialize page browser this) = Throw e) as Hout.
    { run_initialize. rewrite Hjson; simpl. rewrite Hparse; simpl. rewrite He.
      by destruct (evaluate_ExposeStore page). }
    split; [done|]. by eapply initialize_throw_no_ready.
  - intros e json localStorage Hjson Hparse Hstore He.
    assert (outcome (initialize page browser this) = Throw e) as Hout.
    { run_initialize. rewrite Hjson; simpl. rewrite Hparse; simpl.
      rewrite Hstore; simpl. rewrite He.
      by destruct (evaluate_ExposeStore page). }
    split; [done|]. by eapply initialize_throw_no_ready.
  - intros e json localStorage Hjson Hparse Hstore Hutils He.
    assert (outcome (initialize page browser this) = Throw e) as Hout.
    { run_initialize. rewrite Hjson; simpl. rewrite Hparse; simpl.
      rewrite Hstore; simpl. rewrite Hutils; simpl. rewrite He.
      by destruct (evaluate_ExposeStore page). }
    split; [done|]. by eapply initialize_throw_no_ready.
  - intros e json Hjson He.
    assert (outcome (initialize page browser this) = Throw e) as Hout.
    { run_initialize. rewrite Hjson; simpl. rewrite He.
      by destruct (evaluate_ExposeStore page). }
    split; [done|]. by eapply initialize_throw_no_ready.
Qed.

(** When every call on the page succeeds, [initialize] emits
    [authenticated] with the four tokens, then [ready], and leaves the page
    and the browser in the client. *)
Lemma initialize_success page browser this json localStorage conn :
  evaluate_ExposeStore page = Normal () →
  evaluate_localStorage page = Normal json →
  JSON_parse json = Normal localStorage →
  waitForFunction page "window.Store != undefined" = Normal () →
  evaluate_LoadUtils page = Normal () →
  evaluate_Conn_serialize page = Normal conn →
  (∀ name, exposeFunction page name = Normal ()) →
  evaluate_subscribe page = Normal () →
  initialize page browser this =
    ([emit (AUTHENTICATED
              {| WABrowserId := localStorage !! "WABrowserId";
                 WASecretBundle := localStorage !! "WASecretBundle";
                 WAToken1 := localStorage !! "WAToken1";
                 WAToken2 := localStorage !! "WAToken2" |});
      emit READY],
     {| info := Some (ClientInfo_new conn);
        pupBrowser := Some browser;
        pupPage := Some page |},
     Normal ()).
Proof.
  intros Hexpose Hjson Hparse Hstore Hutils Hconn Hfun Hsub. run_initialize.
  rewrite Hexpose; simpl. rewrite Hjson; simpl. rewrite Hparse; simpl.
  rewrite Hstore; simpl. rewrite Hutils; simpl. rewrite Hconn; simpl.
  rewrite !Hfun; simpl. by rewrite Hsub.
Qed.

End InitializeFacts.

(** * Properties of sendMessage *)

Section SendFacts.
Context `{ST : Structures} `{INJ : !Injected}.
Implicit Types (σ : Store) (chat : ref) (c : Chat.t).

(** ** Assigning the identity of a chat *)



Lemma assign_id_models chat v σ :
  Chat_models (assign_id chat v σ) = Chat_models σ.
Proof. done. Qed.




Lemma Chat_models_0_Some σ chat c :
  Chat_models σ !! 0%nat = Some chat →
  Chat_objects σ !! chat = Some c →
  Chat_models_0 σ = Some (chat, c).
Proof. intros Hm Hc. unfold Chat_models_0. rewrite Hm. simpl. by rewrite Hc. Qed.


(** ** The chat list is empty *)


(** ** Borrowing the identity of the first chat *)


(** When the send helper throws, the evaluation stops there: the identity is
    not assigned back. *)
Lemma sendMessage_throw_keeps_borrowed chatId message (internal : InternalOptions)
    sendSeen σ newChatId chat c σ2 e :
  Store_Chat_get σ chatId = None →
  WWebJS_getNumberId σ chatId = Normal (Some newChatId) →
  Chat_models σ !! 0%nat = Some chat →
  Chat_objects σ !! chat = Some c →
  WWebJS_sendMessage (assign_id chat newChatId σ) chat message internal None
    = (σ2, Throw e) →
  sendMessage_evaluate chatId message internal sendSeen σ = (σ2, Throw e).
Proof.
  intros Hget Hid Hmodels Hc Hsend. unfold sendMessage_evaluate.
  by rewrite Hget, Hid, (Chat_models_0_Some σ chat c Hmodels Hc), Hsend.
Qed.

(** The chat is absent and the identifier does not resolve: no send is
    made, the variable [msg] stays undefined and [msg.serialize()] throws a
    type error, whatever the chat list holds. *)
Lemma sendMessage_unresolvable chatId message (internal : InternalOptions) sendSeen σ :
  Store_Chat_get σ chatId = None →
  WWebJS_getNumberId σ chatId = Normal None →
  sendMessage_evaluate chatId message internal sendSeen σ
  = (σ, Throw (TypeError "Cannot read property 'serialize' of undefined")).
Proof.
  intros Hget Hid. unfold sendMessage_evaluate. by rewrite Hget, Hid.
Qed.

End SendFacts.

(** * The statements on concrete inputs *)

Section Instances.
Local Existing Instances Demo.structures Demo.constants.

(** A change of the record [3EB0], then its revocation: the previous state
    is the record of the change; after a change of another record only, no
    previous state. *)
Lemma revocation_reconstruction_witness :
  (run Demo.no_global Closure_new
     [Msg_change Demo.chat_msg; Msg_change_type Demo.revoked_msg]).2
  = [emit (MESSAGE_REVOKED_EVERYONE Demo.revoked_msg (Some Demo.chat_msg))]
  ∧ (deliver Demo.no_global {| last_message := Some Demo.other_msg |}
       (Msg_change_type Demo.revoked_msg)).2
    = [emit (MESSAGE_REVOKED_EVERYONE Demo.revoked_msg None)]
  ∧ (run Demo.no_global Closure_new
       [Msg_change Demo.other_msg; Msg_change_type Demo.revoked_msg]).2
    = [emit (MESSAGE_REVOKED_EVERYONE Demo.revoked_msg None)].
Proof.
  destruct (revocation_reconstruction Demo.no_global) as (Hsome & Hnone & Hhist).
  split_and!.
  - apply (Hsome Closure_new Demo.chat_msg Demo.revoked_msg []);
      [discriminate | reflexivity | reflexivity | constructor].
  - apply (Hnone {| last_message := Some Demo.other_msg |} Demo.revoked_msg);
      [reflexivity|].
    intros last [= <-]. discriminate.
  - apply (Hhist Demo.revoked_msg [Msg_change Demo.other_msg]); [reflexivity|].
    intros msg Hin _. apply list_elem_of_singleton in Hin.
    injection Hin as ->. discriminate.
Defined.

Lemma not_new_emits_nothing_witness :
  RawMsg.isNewMsg Demo.old_msg = false
  ∧ onAddMessageEvent Demo.old_msg = []
  ∧ onRemoveMessageEvent Demo.old_msg = []
  ∧ deliver Demo.no_global Closure_new (Msg_add Demo.old_msg) = (Closure_new, [])
  ∧ deliver Demo.no_global Closure_new (Msg_remove Demo.old_msg) = (Closure_new, []).
Proof.
  split; [reflexivity|].
  apply (not_new_emits_nothing Demo.no_global Closure_new Demo.old_msg).
  reflexivity.
Defined.

(** C4 as stated fails: a record marked new of type [gp2] gives no
    [message_create]. *)
Lemma message_create_always_counterexample :
  ¬ (∀ (ST : Structures) (msg : RawMsg.t),
       RawMsg.isNewMsg msg = true →
       ∃ message, emit (MESSAGE_CREATE message) ∈ onAddMessageEvent msg).
Proof.
  intros Hclaim.
  destruct (Hclaim Demo.structures Demo.group_msg eq_refl) as [message Hin].
  apply list_elem_of_singleton in Hin. discriminate Hin.
Qed.

Lemma new_message_create_then_received_witness :
  onAddMessageEvent Demo.chat_msg
  = [emit (MESSAGE_CREATE Demo.chat_msg); emit (MESSAGE_RECEIVED Demo.chat_msg)]
  ∧ onAddMessageEvent Demo.own_msg = [emit (MESSAGE_CREATE Demo.own_msg)].
Proof.
  split.
  - destruct (new_message_create_then_received Demo.no_global Closure_new
                Demo.chat_msg) as (_ & _ & _ & Hother);
      [reflexivity | discriminate |].
    apply Hother. reflexivity.
  - destruct (new_message_create_then_received Demo.no_global Closure_new
                Demo.own_msg) as (_ & _ & Hme & _);
      [reflexivity | discriminate |].
    apply Hme. reflexivity.
Defined.

Lemma group_notification_event_witness :
  onAddMessageEvent Demo.group_msg = [emit (GROUP_JOIN Demo.group_msg)]
  ∧ onAddMessageEvent Demo.group_leave_msg = [emit (GROUP_LEAVE Demo.group_leave_msg)]
  ∧ onAddMessageEvent Demo.group_subject_msg
    = [emit (GROUP_UPDATE Demo.group_subject_msg)].
Proof.
  split_and!.
  - destruct (group_notification_event Demo.no_global Closure_new Demo.group_msg)
      as (_ & _ & Hjoin & _); [reflexivity | reflexivity |].
    apply Hjoin. by left.
  - destruct (group_notification_event Demo.no_global Closure_new Demo.group_leave_msg)
      as (_ & _ & _ & Hleave & _); [reflexivity | reflexivity |].
    apply Hleave. by right; left.
  - destruct (group_notification_event Demo.no_global Closure_new Demo.group_subject_msg)
      as (_ & _ & _ & _ & Hupdate & _); [reflexivity | reflexivity |].
    apply Hupdate.
    intros Hin. repeat (apply elem_of_cons in Hin as [Hin|Hin]; [discriminate Hin|]).
    by apply elem_of_nil in Hin.
Defined.

Lemma state_change_events_witness :
  deliver Demo.no_global Closure_new (AppState_change_state "CONNECTED")
  = (Closure_new, [emit (STATE_CHANGED "CONNECTED")])
  ∧ deliver Demo.no_global Closure_new (AppState_change_state "CONFLICT")
    = (Closure_new,
       [emit (STATE_CHANGED "CONFLICT");
        emit (DISCONNECTED "CONFLICT");
        call_destroy (Throw (ReferenceError "page is not defined"))]).
Proof.
  split.
  - destruct (state_change_events Demo.no_global Closure_new "CONNECTED")
      as [Haccepted _].
    apply Haccepted. by left.
  - destruct (state_change_events Demo.no_global Closure_new "CONFLICT")
      as [_ Hother].
    apply Hother.
    intros Hin. repeat (apply elem_of_cons in Hin as [Hin|Hin]; [discriminate Hin|]).
    by apply elem_of_nil in Hin.
Defined.

(** The injection fails on a page where everything else succeeds: the value
    is logged and [ready] is emitted all the same.  On the four pages where
    a later step fails, [initialize] rejects and [ready] is not emitted. *)
Lemma initialize_failure_handling_witness :
  (actions (initialize Demo.page_no_injection 1%nat Client_new)
   = [console_log Demo.boom;
      emit (AUTHENTICATED
              {| WABrowserId := None; WASecretBundle := None;
                 WAToken1 := None; WAToken2 := None |});
      emit READY]
   ∧ outcome (initialize Demo.page_no_injection 1%nat Client_new) = Normal ())
  ∧ (outcome (initialize Demo.page_no_storage 1%nat Client_new) = Throw Demo.boom
     ∧ emit READY ∉ actions (initialize Demo.page_no_storage 1%nat Client_new))
  ∧ (outcome (initialize Demo.page_no_store 1%nat Client_new) = Throw Demo.boom
     ∧ emit READY ∉ actions (initialize Demo.page_no_store 1%nat Client_new))
  ∧ (outcome (initialize Demo.page_no_utils 1%nat Client_new) = Throw Demo.boom
     ∧ emit READY ∉ actions (initialize Demo.page_no_utils 1%nat Client_new))
  ∧ (outcome (initialize Demo.page_no_conn 1%nat Client_new) = Throw Demo.boom
     ∧ emit READY ∉ actions (initialize Demo.page_no_conn 1%nat Client_new)).
Proof.
  split_and!.
  - destruct (initialize_failure_handling Demo.page_no_injection 1%nat Client_new)
      as (Hinjection & _).
    apply (Hinjection Demo.boom). reflexivity.
  - destruct (initialize_failure_handling Demo.page_no_injection 1%nat Client_new)
      as (Hinjection & _).
    apply (Hinjection Demo.boom). reflexivity.
  - destruct (initialize_failure_handling Demo.page_no_storage 1%nat Client_new)
      as (_ & Hstorage & _).
    apply (Hstorage Demo.boom). reflexivity.
  - destruct (initialize_failure_handling Demo.page_no_storage 1%nat Client_new)
      as (_ & Hstorage & _).
    apply (Hstorage Demo.boom). reflexivity.
  - destruct (initialize_failure_handling Demo.page_no_store 1%nat Client_new)
      as (_ & _ & Hstore & _).
    apply (Hstore Demo.boom "{}" ∅); reflexivity.
  - destruct (initialize_failure_handling Demo.page_no_store 1%nat Client_new)
      as (_ & _ & Hstore & _).
    apply (Hstore Demo.boom "{}" ∅); reflexivity.
  - destruct (initialize_failure_handling Demo.page_no_utils 1%nat Client_new)
      as (_ & _ & _ & Hutils & _).
    apply (Hutils Demo.boom "{}" ∅); reflexivity.
  - destruct (initialize_failure_handling Demo.page_no_utils 1%nat Client_new)
      as (_ & _ & _ & Hutils & _).
    apply (Hutils Demo.boom "{}" ∅); reflexivity.
  - destruct (initialize_failure_handling Demo.page_no_conn 1%nat Client_new)
      as (_ & _ & _ & _ & Hconn & _).
    apply (Hconn Demo.boom "{}" ∅); reflexivity.
  - destruct (initialize_failure_handling Demo.page_no_conn 1%nat Client_new)
      as (_ & _ & _ & _ & Hconn & _).
    apply (Hconn Demo.boom "{}" ∅); reflexivity.
Defined.




End Instances.

(** * Further properties of the event bridge *)

Section BridgeInvariants.
Context `{ST : Structures} `{CO : Constants}.
Implicit Types (global : gmap string Page) (cl : Closure).
Implicit Types (msg : RawMsg.t) (ns : list Notification) (out : list Action).

Lemma right_after_app (a b : Action) out1 out2 :
  right_after a b out1 → right_after a b out2 → right_after a b (out1 ++ out2).
Proof.
  intros H1 H2 i Hi. destruct (decide (i < length out1)) as [Hlt|Hge].
  - rewrite lookup_app_l in Hi by done. destruct (H1 i Hi) as (j & -> & Hj).
    exists j. split; [done|]. by rewrite lookup_app_l by lia.
  - rewrite lookup_app_r in Hi by lia. destruct (H2 _ Hi) as (j & Hij & Hj).
    exists (length out1 + j). split; [lia|].
    rewrite lookup_app_r by lia.
    by replace (length out1 + j - length out1) with j by lia.
Qed.

Lemma right_before_app (a b : Action) out1 out2 :
  right_before a b out1 → right_before a b out2 → right_before a b (out1 ++ out2).
Proof.
  intros H1 H2 i Hi. destruct (decide (i < length out1)) as [Hlt|Hge].
  - rewrite lookup_app_l in Hi by done. specialize (H1 i Hi).
    rewrite lookup_app_l; [done|]. by eapply lookup_lt_Some.
  - rewrite lookup_app_r in Hi by lia. specialize (H2 _ Hi).
    rewrite lookup_app_r by lia.
    by replace (S i - length out1) with (S (i - length out1)) by lia.
Qed.

(** A property of every delivery that holds of the empty trace and of a
    concatenation holds of every run. *)
Lemma run_trace_ind (P : list Action → Prop) global :
  P [] →
  (∀ out1 out2, P out1 → P out2 → P (out1 ++ out2)) →
  (∀ cl n, P (deliver global cl n).2) →
  ∀ cl ns, P (run global cl ns).2.
Proof.
  intros Hnil Happ Hdeliver cl ns. revert cl.
  induction ns as [|n ns IH]; intros cl; simpl; [done|].
  specialize (Hdeliver cl n). destruct (deliver global cl n) as [cl1 out1].
  specialize (IH cl1). destruct (run global cl1 ns) as [cl2 out2].
  by apply Happ.
Qed.

Ltac small_trace i Hi :=
  repeat (destruct i as [|i]; simpl in Hi; simplify_eq; eauto).

Lemma onAddMessageEvent_received_after_create msg message :
  right_after (emit (MESSAGE_CREATE message)) (emit (MESSAGE_RECEIVED message))
    (onAddMessageEvent msg).
Proof.
  intros i Hi. unfold onAddMessageEvent in *.
  repeat case_match; small_trace i Hi.
Qed.

(** In the trace of any run, each [message] (received) event comes right
    after the [message_create] event of the same message. *)
Theorem received_right_after_create global cl ns message :
  right_after (emit (MESSAGE_CREATE message)) (emit (MESSAGE_RECEIVED message))
    (run global cl ns).2.
Proof.
  apply run_trace_ind.
  - intros i Hi. done.
  - apply right_after_app.
  - intros cl' n. destruct n as [m|m|m|m a|m|s]; simpl.
    + case_match; [apply onAddMessageEvent_received_after_create|by intros i Hi].
    + by intros i Hi.
    + intros i Hi. unfold onChangeMessageTypeEvent in Hi.
      repeat case_match; small_trace i Hi.
    + intros i Hi. unfold onMessageAckEvent in Hi. small_trace i Hi.
    + intros i Hi. unfold onRemoveMessageEvent in Hi.
      repeat case_match; small_trace i Hi.
    + intros i Hi. unfold onAppStateChangedEvent in Hi.
      repeat case_match; small_trace i Hi.
Qed.

(** In the trace of any run, each [disconnected] event comes right after the
    [change_state] event of the same state and right before the call of
    [destroy]. *)
Theorem disconnected_between global cl ns (state : string) :
  right_after (emit (STATE_CHANGED state)) (emit (DISCONNECTED state))
    (run global cl ns).2
  ∧ right_before (emit (DISCONNECTED state)) (call_destroy (destroy global))
      (run global cl ns).2.
Proof.
  split.
  - apply run_trace_ind.
    + by intros i Hi.
    + apply right_after_app.
    + intros cl' n. destruct n as [m|m|m|m a|m|s]; simpl; intros i Hi.
      * unfold onAddMessageEvent in Hi. repeat case_match; small_trace i Hi.
      * done.
      * unfold onChangeMessageTypeEvent in Hi. repeat case_match; small_trace i Hi.
      * unfold onMessageAckEvent in Hi. small_trace i Hi.
      * unfold onRemoveMessageEvent in Hi. repeat case_match; small_trace i Hi.
      * unfold onAppStateChangedEvent in Hi. repeat case_match; small_trace i Hi.
  - apply run_trace_ind.
    + by intros i Hi.
    + apply right_before_app.
    + intros cl' n. destruct n as [m|m|m|m a|m|s]; simpl; intros i Hi.
      * unfold onAddMessageEvent in Hi. repeat case_match; small_trace i Hi.
      * done.
      * unfold onChangeMessageTypeEvent in Hi. repeat case_match; small_trace i Hi.
      * unfold onMessageAckEvent in Hi. small_trace i Hi.
      * unfold onRemoveMessageEvent in Hi. repeat case_match; small_trace i Hi.
      * unfold onAppStateChangedEvent in *. repeat case_match; small_trace i Hi.
Qed.

End BridgeInvariants.

(** * Further properties of the cached record *)

Section CacheFacts.
Context `{ST : Structures} `{CO : Constants}.
Implicit Types (global : gmap string Page) (cl : Closure).
Implicit Types (msg : RawMsg.t) (ns : list Notification).

Lemma change_caches cl msg :
  RawMsg.type msg ≠ "revoked" →
  onChangeMessageEvent cl msg = {| last_message := Some msg |}.
Proof. intros Hty. unfold onChangeMessageEvent. by rewrite decide_True. Qed.

Lemma deliver_revoked_with_previous global cl n message previous :
  emit (MESSAGE_REVOKED_EVERYONE message (Some previous)) ∈ (deliver global cl n).2 →
  ∃ first revoked,
    n = Msg_change_type revoked
    ∧ last_message cl = Some first
    ∧ RawMsg.type revoked = "revoked"
    ∧ MsgKey.id (RawMsg.id revoked) = MsgKey.id (RawMsg.id first)
    ∧ message = Message_new revoked
    ∧ previous = Message_new first.
Proof.
  destruct n as [m|m|m|m a|m|s]; simpl; intros Hin.
  - unfold onAddMessageEvent in Hin.
    repeat case_match;
      repeat (apply elem_of_cons in Hin as [Hin|Hin]; [discriminate Hin|]);
      by apply elem_of_nil in Hin.
  - by apply elem_of_nil in Hin.
  - unfold onChangeMessageTypeEvent in Hin.
    case_decide as Hty; [|by apply elem_of_nil in Hin].
    apply list_elem_of_singleton in Hin.
    destruct (last_message cl) as [last|] eqn:Hlast; [|discriminate Hin].
    case_decide as Hid; [|discriminate Hin].
    exists last, m. by simplify_eq.
  - unfold onMessageAckEvent in Hin.
    apply list_elem_of_singleton in Hin. discriminate Hin.
  - unfold onRemoveMessageEvent in Hin.
    repeat case_match;
      repeat (apply elem_of_cons in Hin as [Hin|Hin]; [discriminate Hin|]);
      by apply elem_of_nil in Hin.
  - unfold onAppStateChangedEvent in Hin.
    repeat case_match;
      repeat (apply elem_of_cons in Hin as [Hin|Hin]; [discriminate Hin|]);
      by apply elem_of_nil in Hin.
Qed.

(** Starting from the closure that [initialize] creates, a
    [message_revoke_everyone] event with a previous state is only emitted
    for a revocation that comes after a change of a record that was not
    revoked and has the same identifier: the previous state is the message
    built from that record. *)
Theorem previous_state_was_snapshotted global ns message previous :
  emit (MESSAGE_REVOKED_EVERYONE message (Some previous))
    ∈ (run global Closure_new ns).2 →
  ∃ ns1 ns2 first revoked,
    ns = ns1 ++ Msg_change_type revoked :: ns2
    ∧ Msg_change first ∈ ns1
    ∧ RawMsg.type first ≠ "revoked"
    ∧ RawMsg.type revoked = "revoked"
    ∧ MsgKey.id (RawMsg.id revoked) = MsgKey.id (RawMsg.id first)
    ∧ message = Message_new revoked
    ∧ previous = Message_new first.
Proof.
  induction ns as [|n ns IH] using rev_ind; simpl.
  - intros Hin. by apply elem_of_nil in Hin.
  - rewrite run_app, run_singleton. cbn [fst snd].
    intros [Hin|Hin]%elem_of_app.
    + destruct (IH Hin) as (ns1 & ns2 & first & revoked & -> & Hrest).
      exists ns1, (ns2 ++ [n]), first, revoked.
      split; [by rewrite <- app_assoc|done].
    + apply deliver_revoked_with_previous in Hin
        as (first & revoked & -> & Hlast & Hty & Hid & -> & ->).
      destruct (last_message_origin _ _ _ _ Hlast) as [Hnew|[Hfirst Hnot]];
        [done|].
      by exists ns, [], first, revoked.
Qed.

(** The closure holds one record: after the changes of two records that are
    not revoked, the revocation of a record whose identifier is not the one
    of the second carries no previous state, even when it is the one of the
    first. *)
Theorem last_change_wins global cl first second revoked ns :
  RawMsg.type second ≠ "revoked" →
  RawMsg.type revoked = "revoked" →
  MsgKey.id (RawMsg.id second) ≠ MsgKey.id (RawMsg.id revoked) →
  Forall keeps_cache ns →
  (run global cl
     (Msg_change first :: Msg_change second :: ns ++ [Msg_change_type revoked])).2 =
    (run global cl (Msg_change first :: Msg_change second :: ns)).2
    ++ [emit (MESSAGE_REVOKED_EVERYONE (Message_new revoked) None)].
Proof.
  intros Hsecond Hrev Hid Hns.
  assert ((run global cl (Msg_change first :: Msg_change second :: ns)).1
          = {| last_message := Some second |}) as Hcache.
  { simpl. rewrite (change_caches _ second) by done.
    pose proof (run_keeps_cache global {| last_message := Some second |} ns Hns) as Hk.
    destruct (run global _ ns). done. }
  rewrite (app_comm_cons ns), (app_comm_cons (_ :: ns)), run_app, run_singleton, Hcache.
  cbn [fst snd deliver]. f_equal.
  apply revoke_without_cached; [done|].
  by intros last [= <-].
Qed.

(** What an event emitted for an added record tells about the record. *)
Theorem add_event_kinds msg (e : Event) :
  emit e ∈ onAddMessageEvent msg →
  RawMsg.isNewMsg msg = true
  ∧ match e with
    | MESSAGE_CREATE message =>
        RawMsg.type msg ≠ "gp2" ∧ message = Message_new msg
    | MESSAGE_RECEIVED message =>
        RawMsg.type msg ≠ "gp2" ∧ MsgKey.fromMe (RawMsg.id msg) = false
        ∧ message = Message_new msg
    | GROUP_JOIN notification =>
        RawMsg.type msg = "gp2"
        ∧ RawMsg.subtype msg ∈ [Some "add"; Some "invite"]
        ∧ notification = GroupNotification_new msg
    | GROUP_LEAVE notification =>
        RawMsg.type msg = "gp2"
        ∧ RawMsg.subtype msg ∈ [Some "remove"; Some "leave"]
        ∧ notification = GroupNotification_new msg
    | GROUP_UPDATE notification =>
        RawMsg.type msg = "gp2"
        ∧ (RawMsg.subtype msg ∉ [Some "add"; Some "invite"; Some "remove"; Some "leave"])
        ∧ notification = GroupNotification_new msg
    | _ => False
    end.
Proof.
  unfold onAddMessageEvent.
  destruct (RawMsg.isNewMsg msg); simpl; [|by intros ?%elem_of_nil].
  intros Hin. split; [done|].
  case_decide as Hty.
  - destruct (bool_decide (RawMsg.subtype msg = Some "add")) eqn:Hadd;
      [|destruct (bool_decide (RawMsg.subtype msg = Some "invite")) eqn:Hinvite;
        [|destruct (bool_decide (RawMsg.subtype msg = Some "remove")) eqn:Hremove;
          [|destruct (bool_decide (RawMsg.subtype msg = Some "leave")) eqn:Hleave]]];
      simpl in Hin; apply list_elem_of_singleton in Hin; simplify_eq;
      (split; [done|]); (split; [|done]).
    + apply bool_decide_eq_true_1 in Hadd as ->. by left.
    + apply bool_decide_eq_true_1 in Hinvite as ->. by right; left.
    + apply bool_decide_eq_true_1 in Hremove as ->. by left.
    + apply bool_decide_eq_true_1 in Hleave as ->. by right; left.
    + apply bool_decide_eq_false_1 in Hadd, Hinvite, Hremove, Hleave.
      intros Hsub.
      repeat (apply elem_of_cons in Hsub as [Hsub|Hsub]; [done|]).
      by apply elem_of_nil in Hsub.
  - destruct (MsgKey.fromMe (RawMsg.id msg)) eqn:Hme.
    + apply list_elem_of_singleton in Hin. by simplify_eq.
    + apply elem_of_cons in Hin as [Hin|Hin]; [by simplify_eq|].
      apply list_elem_of_singleton in Hin. by simplify_eq.
Qed.

End CacheFacts.

(** * Further properties of initialize *)

Section InitializeMore.
Context `{ST : Structures} `{CO : Constants}.
Implicit Types (page : Page) (browser : Browser) (this : Client).






(** Once the local storage has been read and parsed, [authenticated] is
    emitted with the four tokens, whatever the later steps do: also when
    [initialize] then rejects. *)
Theorem authenticated_before_later_steps page browser this json
    (localStorage : gmap string string) :
  evaluate_localStorage page = Normal json →
  JSON_parse json = Normal localStorage →
  emit (AUTHENTICATED
          {| WABrowserId := localStorage !! "WABrowserId";
             WASecretBundle := localStorage !! "WASecretBundle";
             WAToken1 := localStorage !! "WAToken1";
             WAToken2 := localStorage !! "WAToken2" |})
    ∈ actions (initialize page browser this).
Proof.
  intros Hjson Hparse.
  unfold initialize, actions, mbind, Async_mbind, Async_bind, try_catch, await,
    this_emit, console_log_. simpl.
  rewrite Hjson. simpl. rewrite Hparse. simpl.
  repeat match goal with
         | |- context [match ?c with Normal _ => _ | Throw _ => _ end] =>
             destruct c eqn:?; simpl
         end;
    rewrite !elem_of_cons; tauto.
Qed.

(** [authenticated] is not emitted when the local storage cannot be read or
    parsed. *)
Theorem no_authenticated_without_storage page browser this (session : Session) :
  (∃ e, evaluate_localStorage page = Throw e)
  ∨ (∃ json e, evaluate_localStorage page = Normal json ∧ JSON_parse json = Throw e) →
  emit (AUTHENTICATED session) ∉ actions (initialize page browser this).
Proof.
  intros [[e He]|(json & e & Hjson & He)];
    unfold initialize, actions, mbind, Async_mbind, Async_bind, try_catch, await,
      this_emit, console_log_; simpl.
  - rewrite He. destruct (evaluate_ExposeStore page); simpl;
      rewrite ?elem_of_cons, elem_of_nil; intros Hin; intuition discriminate.
  - rewrite Hjson. simpl. rewrite He.
    destruct (evaluate_ExposeStore page); simpl;
      rewrite ?elem_of_cons, elem_of_nil; intros Hin; intuition discriminate.
Qed.

End InitializeMore.

(** * Further properties of sendMessage *)

Section SendMore.
Context `{ST : Structures} `{INJ : !Injected}.
Implicit Types (σ : Store) (chat : ref) (c : Chat.t) (this : Client).
Implicit Types (content message : Content) (options : SendOptions).

(** [sendMessage] evaluates its function on the arguments that
    [sendMessage_arguments] computes. *)
Lemma sendMessage_factor this chatId content options σ :
  sendMessage this chatId content options σ =
    match pupPage this with
    | None => (σ, Throw (TypeError "Cannot read property 'evaluate' of null"))
    | Some _ =>
        let '(σ', newMessage) :=
          sendMessage_evaluate chatId
            (sendMessage_arguments content options).1
            (sendMessage_arguments content options).2
            (default true (opt_sendSeen options)) σ in
        (σ', Completion_map Message_new newMessage)
    end.
Proof.
  unfold sendMessage, sendMessage_arguments.
  by destruct content, (opt_media options).
Qed.

(** The content modes.  The options handed to the page never carry an
    attachment and a location together.  A media content is sent as the
    attachment with an empty text, and wins over [options.media].  With
    [options.media] and another content, the content becomes the caption in
    place of [options.caption], also when the content is a location, which
    is then not sent as a location.  A location is sent as such only
    without [options.media].  The quoted message and the mentions do not
    depend on the mode. *)
Theorem sendMessage_content_modes content options :
  let message := (sendMessage_arguments content options).1 in
  let internal := (sendMessage_arguments content options).2 in
  (attachment internal = None ∨ location internal = None)
  ∧ (∀ m, content = Media m →
       message = Text "" ∧ attachment internal = Some m
       ∧ caption internal = Text <$> opt_caption options)
  ∧ (∀ m, opt_media options = Some m → (∀ m', content ≠ Media m') →
       message = content ∧ attachment internal = Some m
       ∧ caption internal = Some content ∧ location internal = None)
  ∧ (∀ l, location internal = Some l →
       content = Loc l ∧ opt_media options = None ∧ message = Text "")
  ∧ quotedMessageId internal = opt_quotedMessageId options
  ∧ mentionedJidList internal =
      (λ contact, Wid._serialized (Contact.id contact))
        <$> default [] (opt_mentions options).
Proof.
  unfold sendMessage_arguments.
  destruct content as [s|m0|l0], (opt_media options) as [m1|] eqn:Hmedia; simpl;
    (split_and!;
       [by (left + right)
       |by intros m [= <-]
       |intros m Hm Hnot; try discriminate Hm; simplify_eq;
        by (done || (exfalso; eapply Hnot))
       |by intros l [= <-]
       |done
       |by destruct (opt_mentions options)]).
Qed.

(** The chat is in the list: the send helper is called on it, after the
    helper [sendSeen] unless [options.sendSeen] is given and false, and the
    message it resolves to is returned as a [Message]; the store is the one
    the helper leaves. *)
Theorem sendMessage_existing_chat this (page : Page) chatId content options σ chat σ2 m :
  pupPage this = Some page →
  Store_Chat_get σ chatId = Some chat →
  WWebJS_sendMessage
    (if default true (opt_sendSeen options) then WWebJS_sendSeen σ chatId else σ)
    chat
    (sendMessage_arguments content options).1
    (sendMessage_arguments content options).2
    (Some (default true (opt_sendSeen options)))
  = (σ2, Normal (Some m)) →
  sendMessage this chatId content options σ
  = (σ2, Normal (Message_new (serialize m))).
Proof.
  intros Hpage Hget Hsend. rewrite sendMessage_factor, Hpage.
  unfold sendMessage_evaluate. by rewrite Hget, Hsend.
Qed.


(** The send helper throws on the borrowing path and leaves the borrowed
    chat object as it got it: the evaluation rejects with the value thrown,
    and the first chat of the list keeps the resolved identity, so it is no
    longer the chat it was when that identity differs from its own. *)
Theorem failed_send_leaves_identity_borrowed chatId message
    (internal : InternalOptions) sendSeen σ newChatId chat c σ2 e :
  Store_Chat_get σ chatId = None →
  WWebJS_getNumberId σ chatId = Normal (Some newChatId) →
  Chat_models σ !! 0%nat = Some chat →
  Chat_objects σ !! chat = Some c →
  WWebJS_sendMessage (assign_id chat newChatId σ) chat message internal None
    = (σ2, Throw e) →
  Chat_objects σ2 !! chat = Chat_objects (assign_id chat newChatId σ) !! chat →
  (sendMessage_evaluate chatId message internal sendSeen σ).2 = Throw e
  ∧ Chat_objects (sendMessage_evaluate chatId message internal sendSeen σ).1 !! chat
    = Some (Chat.set_id newChatId c)
  ∧ (newChatId ≠ Chat.id c →
       Chat_objects (sendMessage_evaluate chatId message internal sendSeen σ).1 !! chat
       ≠ Some c).
Proof.
  intros Hget Hid Hmodels Hc Hsend Hsame.
  rewrite (sendMessage_throw_keeps_borrowed chatId message internal sendSeen σ
             newChatId chat c σ2 e Hget Hid Hmodels Hc Hsend).
  cbn [fst snd]. unfold assign_id in Hsame. simpl in Hsame.
  rewrite lookup_alter_eq, Hc in Hsame. simpl in Hsame.
  split_and!; [done|done|].
  intros Hne. rewrite Hsame. intros [= Heq]. apply Hne.
  by rewrite <- Heq.
Qed.

End SendMore.

(** * Properties of the other commands *)

Section CommandFacts.
Context `{ST : Structures} `{CO : Constants} `{INJ : !Injected}.
Context `{FA : Factories} `{PC : !PageCommands}.
Implicit Types (σ : Store) (this : Client) (page : Page).



Lemma set_archive_set_archive (flag flag' : bool) (c : Chat.t) :
  set_archive flag (set_archive flag' c) = set_archive flag c.
Proof. done. Qed.

Lemma set_archive_same (c : Chat.t) : set_archive (Chat.archive c) c = c.
Proof. by destruct c. Qed.

Lemma archived_lookup (flag : bool) (r : ref) σ :
  Chat_objects (archived flag r σ) !! r = set_archive flag <$> Chat_objects σ !! r.
Proof. unfold archived. simpl. by rewrite lookup_alter_eq. Qed.

Lemma archived_lookup_ne (flag : bool) (r r' : ref) σ :
  r' ≠ r → Chat_objects (archived flag r σ) !! r' = Chat_objects σ !! r'.
Proof. intros Hne. unfold archived. simpl. by rewrite lookup_alter_ne. Qed.

Lemma archived_archived (flag flag' : bool) (r : ref) σ :
  archived flag r (archived flag' r σ) = archived flag r σ.
Proof.
  unfold archived. simpl. f_equal. apply map_eq. intros r'.
  destruct (decide (r = r')) as [<-|Hne].
  - rewrite !lookup_alter_eq. by destruct (Chat_objects σ !! r).
  - by rewrite !lookup_alter_ne.
Qed.

Lemma archived_same (r : ref) (c : Chat.t) σ :
  Chat_objects σ !! r = Some c → archived (Chat.archive c) r σ = σ.
Proof.
  intros Hc. destruct σ as [objects models]. unfold archived. simpl in *.
  f_equal. apply map_eq. intros r'.
  destruct (decide (r = r')) as [<-|Hne].
  - rewrite lookup_alter_eq, Hc. simpl. by rewrite set_archive_same.
  - by rewrite lookup_alter_ne.
Qed.

(** Both archive commands, for a chat of the list and a store command that
    archives as asked. *)
Lemma archive_commands this page (chatId : string) σ (r : ref) (c : Chat.t) :
  archives_as_asked →
  pupPage this = Some page →
  Store_Chat_get σ chatId = Some r →
  Chat_objects σ !! r = Some c →
  archiveChat this chatId σ = (archived true r σ, Normal true)
  ∧ unarchiveChat this chatId σ = (archived false r σ, Normal false).
Proof.
  intros Hcmd Hpage Hget Hc.
  unfold archiveChat, unarchiveChat, pupPage_evaluate.
  rewrite Hpage, Hget, !Hcmd. unfold chat_archive. simpl.
  by rewrite !lookup_alter_eq, Hc.
Qed.

(** With a store command that archives as asked, for a chat of the list:
    [archiveChat] resolves to true and changes nothing but the flag of that
    chat; repeated, it resolves to true again and leaves the store as it is;
    [unarchiveChat] afterwards resolves to false, and gives back the
    original store when the chat was not archived to begin with. *)
Theorem archive_then_unarchive this page (chatId : string) σ (r : ref) (c : Chat.t) :
  archives_as_asked →
  pupPage this = Some page →
  Store_Chat_get σ chatId = Some r →
  Chat_objects σ !! r = Some c →
  let σ1 := (archiveChat this chatId σ).1 in
  (archiveChat this chatId σ).2 = Normal true
  ∧ Chat_objects σ1 !! r = Some (set_archive true c)
  ∧ (∀ r', r' ≠ r → Chat_objects σ1 !! r' = Chat_objects σ !! r')
  ∧ Chat_models σ1 = Chat_models σ
  ∧ (Store_Chat_get σ1 chatId = Some r →
       archiveChat this chatId σ1 = (σ1, Normal true)
       ∧ (unarchiveChat this chatId σ1).2 = Normal false
       ∧ Chat_objects (unarchiveChat this chatId σ1).1 !! r
         = Some (set_archive false c)
       ∧ (Chat.archive c = false → (unarchiveChat this chatId σ1).1 = σ)).
Proof.
  intros Hcmd Hpage Hget Hc σ1. subst σ1.
  destruct (archive_commands this page chatId σ r c Hcmd Hpage Hget Hc) as [-> _].
  cbn [fst snd].
  assert (Chat_objects (archived true r σ) !! r = Some (set_archive true c)) as Hc1.
  { by rewrite archived_lookup, Hc. }
  split_and!; [done|done|by intros r' Hne; apply archived_lookup_ne|done|].
  intros Hget1.
  destruct (archive_commands this page chatId (archived true r σ) r
              (set_archive true c) Hcmd Hpage Hget1 Hc1) as [-> ->].
  cbn [fst snd]. rewrite !archived_archived.
  split_and!; [done|done|by rewrite archived_lookup, Hc|].
  intros Hflag. rewrite <- Hflag. by apply archived_same.
Qed.

(** For a chat that is not in the list, neither archive command ever
    resolves to a flag: the store command throws, or reading [archive] on
    the undefined chat does. *)
Theorem archive_absent_chat_rejects this (chatId : string) σ (flag : bool) :
  Store_Chat_get σ chatId = None →
  (archiveChat this chatId σ).2 ≠ Normal flag
  ∧ (unarchiveChat this chatId σ).2 ≠ Normal flag.
Proof.
  intros Hget. unfold archiveChat, unarchiveChat, pupPage_evaluate.
  rewrite Hget. split; by repeat case_match.
Qed.

End CommandFacts.

(** * The further statements on concrete inputs *)

Section MoreInstances.
Local Existing Instances Demo.structures Demo.constants DemoCommands.factories.
Local Existing Instance DemoCommands.commands.

Lemma previous_state_was_snapshotted_witness :
  ∃ ns1 ns2 first revoked,
    [Msg_change Demo.chat_msg; Msg_change_type Demo.revoked_msg]
    = ns1 ++ Msg_change_type revoked :: ns2
    ∧ Msg_change first ∈ ns1
    ∧ RawMsg.type first ≠ "revoked"
    ∧ RawMsg.type revoked = "revoked"
    ∧ MsgKey.id (RawMsg.id revoked) = MsgKey.id (RawMsg.id first)
    ∧ Demo.revoked_msg = Message_new revoked
    ∧ Demo.chat_msg = Message_new first.
Proof.
  apply (previous_state_was_snapshotted Demo.no_global
           [Msg_change Demo.chat_msg; Msg_change_type Demo.revoked_msg]
           Demo.revoked_msg Demo.chat_msg).
  vm_compute. left.
Defined.

(** [3EB0] changes, [3EB9] changes, [3EB0] is revoked: no previous state. *)
Lemma last_change_wins_witness :
  (run Demo.no_global Closure_new
     [Msg_change Demo.chat_msg; Msg_change Demo.other_msg;
      Msg_change_type Demo.revoked_msg]).2
  = [emit (MESSAGE_REVOKED_EVERYONE Demo.revoked_msg None)].
Proof.
  apply (last_change_wins Demo.no_global Closure_new Demo.chat_msg Demo.other_msg
           Demo.revoked_msg []);
    [discriminate | reflexivity | discriminate | constructor].
Defined.

Lemma add_event_kinds_witness :
  RawMsg.isNewMsg Demo.group_msg = true
  ∧ RawMsg.type Demo.group_msg = "gp2"
  ∧ RawMsg.subtype Demo.group_msg ∈ [Some "add"; Some "invite"]
  ∧ Demo.group_msg = GroupNotification_new Demo.group_msg.
Proof.
  apply (add_event_kinds (ST := Demo.structures) Demo.group_msg
           (GROUP_JOIN (Demo.group_msg : @GroupNotification Demo.structures))).
  vm_compute. left.
Defined.

Lemma initialize_success_witness :
  initialize Demo.page_ok 1%nat Client_new
  = ([emit (AUTHENTICATED
              {| WABrowserId := None; WASecretBundle := None;
                 WAToken1 := None; WAToken2 := None |});
      emit READY],
     Demo.client_ready,
     Normal ()).
Proof.
  etrans;
    [apply (initialize_success Demo.page_ok 1%nat Client_new "{}" ∅
              ("me" : @ConnData Demo.structures)); reflexivity
    |reflexivity].
Defined.



Lemma authenticated_before_later_steps_witness :
  emit (AUTHENTICATED
          {| WABrowserId := None; WASecretBundle := None;
             WAToken1 := None; WAToken2 := None |})
    ∈ actions (initialize Demo.page_no_store 1%nat Client_new)
  ∧ outcome (initialize Demo.page_no_store 1%nat Client_new) = Throw Demo.boom.
Proof.
  split; [|reflexivity].
  exact (authenticated_before_later_steps Demo.page_no_store 1%nat Client_new
           "{}" ∅ eq_refl eq_refl).
Defined.

Lemma no_authenticated_without_storage_witness :
  emit (AUTHENTICATED
          {| WABrowserId := None; WASecretBundle := None;
             WAToken1 := None; WAToken2 := None |})
    ∉ actions (initialize Demo.page_no_storage 1%nat Client_new).
Proof.
  apply (no_authenticated_without_storage Demo.page_no_storage 1%nat Client_new).
  left. exists Demo.boom. reflexivity.
Defined.

(** A location sent along with [options.media]: the photo is the attachment,
    the location ends up as the caption and no location is sent. *)
Lemma sendMessage_content_modes_witness :
  sendMessage_arguments (Loc ("home" : @Location Demo.structures))
    DemoCommands.location_options
  = (Loc ("home" : @Location Demo.structures),
     {| caption := Some (Loc ("home" : @Location Demo.structures));
        quotedMessageId := None;
        mentionedJidList := ["111@c.us"; "222@c.us"];
        attachment := Some ("photo.jpg" : @MessageMedia Demo.structures);
        location := None |}).
Proof.
  destruct (sendMessage_content_modes (Loc ("home" : @Location Demo.structures))
              DemoCommands.location_options)
    as (_ & _ & Hmedia & _ & Hquoted & Hmentions).
  destruct (Hmedia ("photo.jpg" : @MessageMedia Demo.structures))
    as (Hmessage & Hattachment & Hcaption & Hlocation);
    [reflexivity | discriminate |].
  reflexivity.
Defined.

Lemma sendMessage_existing_chat_witness :
  sendMessage (INJ := Demo.injected true) Demo.client_ready "111@c.us" (Text "hi")
    Demo.no_options Demo.store_alice
  = (Demo.store_alice, Normal (serialize Demo.sent)).
Proof.
  apply (sendMessage_existing_chat (INJ := Demo.injected true) Demo.client_ready
           Demo.page_ok "111@c.us" (Text "hi") Demo.no_options Demo.store_alice
           7%nat Demo.store_alice Demo.sent);
    reflexivity.
Defined.


(** The send throws while Alice's chat carries the identity of "123": the
    chat keeps that identity. *)
Lemma failed_send_leaves_identity_borrowed_witness :
  (sendMessage_evaluate (INJ := DemoCommands.injected_failing) "123" (Text "hi")
     Demo.no_internal_options true Demo.store_alice).2 = Throw Demo.boom
  ∧ Chat_objects
      (sendMessage_evaluate (INJ := DemoCommands.injected_failing) "123" (Text "hi")
         Demo.no_internal_options true Demo.store_alice).1 !! 7%nat
    = Some (Chat.mk (Demo.wid "123") "Alice" false 2)
  ∧ Chat_objects
      (sendMessage_evaluate (INJ := DemoCommands.injected_failing) "123" (Text "hi")
         Demo.no_internal_options true Demo.store_alice).1 !! 7%nat
    ≠ Some Demo.alice.
Proof.
  destruct (failed_send_leaves_identity_borrowed
              (INJ := DemoCommands.injected_failing) "123" (Text "hi")
              Demo.no_internal_options true Demo.store_alice (Demo.wid "123")
              7%nat Demo.alice
              (assign_id 7%nat (Demo.wid "123") Demo.store_alice) Demo.boom)
    as (Hout & Hkept & Hchanged);
    [reflexivity | reflexivity | reflexivity | reflexivity | reflexivity
    | reflexivity |].
  split_and!; [exact Hout | exact Hkept | apply Hchanged; discriminate].
Defined.


Lemma demo_archives_as_asked :
  archives_as_asked (PC := DemoCommands.commands).
Proof. intros σ r flag. reflexivity. Defined.

(** Bob's chat, not archived: archive resolves to true, unarchive to false,
    and the store is the original one again. *)
Lemma archive_then_unarchive_witness :
  (archiveChat (INJ := Demo.injected true) Demo.client_ready "222@c.us"
     DemoCommands.store_two).2 = Normal true
  ∧ unarchiveChat (INJ := Demo.injected true) Demo.client_ready "222@c.us"
      (archiveChat (INJ := Demo.injected true) Demo.client_ready "222@c.us"
         DemoCommands.store_two).1
    = (DemoCommands.store_two, Normal false).
Proof.
  destruct (archive_then_unarchive (INJ := Demo.injected true) Demo.client_ready
              Demo.page_ok "222@c.us" DemoCommands.store_two 9%nat DemoCommands.bob
              demo_archives_as_asked eq_refl eq_refl eq_refl)
    as (Htrue & _ & _ & _ & Hagain).
  destruct (Hagain eq_refl) as (_ & Hfalse & _ & Hback).
  split; [exact Htrue|].
  rewrite (surjective_pairing (unarchiveChat _ _ _)).
  by rewrite Hfalse, (Hback eq_refl).
Defined.

Lemma archive_absent_chat_rejects_witness :
  (archiveChat (INJ := Demo.injected true) Demo.client_ready "333@c.us"
     DemoCommands.store_two).2 ≠ Normal true
  ∧ (unarchiveChat (INJ := Demo.injected true) Demo.client_ready "333@c.us"
       DemoCommands.store_two).2 ≠ Normal true.
Proof.
  apply (archive_absent_chat_rejects (INJ := Demo.injected true) Demo.client_ready
           "333@c.us" DemoCommands.store_two true).
  reflexivity.
Defined.

End MoreInstances.
